(** * Median by quickselect: a shallow embedding of [quickselect.py]

    The module has three functions, [partition], [quickselect] and [median].
    They work on Python objects that are shared and mutated in place, so the
    embedding threads an explicit store of objects through every call.

    - The elements of the data are finite numbers, held by their exact
      rational value [Q]; comparing two of them compares these values.
    - What [a + b] and [x / 2] give depends on the type of the elements:
      the arithmetic of that type is a parameter of [median], with the
      arithmetic of [int], of [float] and of [Fraction] as instances
      ([Decimal] rounds and signals as its context says, and has none).
    - Indices are [Z], with Python's rule that a negative index counts from
      the end of the sequence.
    - [random.randint] reads a tape of raw draws held in the state.
    - The recursion limit of the interpreter is not modelled. *)

From Stdlib Require Import ZArith QArith Qround Qabs Lia List.
From Stdlib Require Import Sorting.Permutation.
From stdpp Require Import base list.

Open Scope Z_scope.

(** ** Objects, store and exceptions *)

(** What the operators of a number type raise: [OverflowError], or a
    signal of [decimal]; both are subclasses of [ArithmeticError]. *)
Inductive arith_error : Type :=
  | OverflowError
  | DecimalException.

(** [StatisticsError] is the module's own exception (a [ValueError]
    subclass); the others come from the interpreter and the library. *)
Inductive exn : Type :=
  | StatisticsError
  | IndexError
  | ValueError
  | TypeError
  | ArithmeticError (e : arith_error).

(** A [list] and a [collections.deque] are different kinds of object:
    [isinstance(l, deque)] tells them apart. *)
Inductive obj : Type :=
  | PyList (xs : list Q)
  | PyDeque (xs : list Q).

Definition contents (o : obj) : list Q :=
  match o with
  | PyList xs => xs
  | PyDeque xs => xs
  end.

Definition with_contents (o : obj) (xs : list Q) : obj :=
  match o with
  | PyList _ => PyList xs
  | PyDeque _ => PyDeque xs
  end.

(** A reference is the position of the object in the store. *)
Definition ref : Type := nat.

(** The state of a run: the objects allocated so far, the raw draws the
    random generator has still to give, and the log of every subscript
    [q[i]] evaluated or assigned (most recent first). *)
Record state : Type := State {
  heap : list obj;
  tape : list Z;
  accesses : list (ref * Z)
}.

(** A computation ends with a value, with an exception, or, for the
    recursion of [quickselect], by exhausting the recursion budget. *)
Inductive outcome (A : Type) : Type :=
  | Ret (a : A)
  | Raise (e : exn)
  | Fuel.

Arguments Ret {A} a.
Arguments Raise {A} e.
Arguments Fuel {A}.

Definition M (A : Type) : Type := state -> outcome A * state.

Definition ret {A} (a : A) : M A := fun s => (Ret a, s).

Definition raise {A} (e : exn) : M A := fun s => (Raise e, s).

Definition bind {A B} (m : M A) (f : A -> M B) : M B :=
  fun s =>
    match m s with
    | (Ret a, s') => f a s'
    | (Raise e, s') => (Raise e, s')
    | (Fuel, s') => (Fuel, s')
    end.

Declare Scope py_scope.
Delimit Scope py_scope with py.
Notation "x <- m ;; k" := (bind m (fun x => k))
  (at level 100, m at next level, right associativity) : py_scope.
Notation "m ;;; k" := (bind m (fun _ => k))
  (at level 100, right associativity) : py_scope.
Open Scope py_scope.

(** ** Subscripting *)

(** Python's index rule for a sequence of length [n]: [0 .. n-1] are the
    positions themselves, [-n .. -1] count from the end, anything else is
    an [IndexError]. *)
Definition py_index (n : nat) (i : Z) : option nat :=
  if (0 <=? i) && (i <? Z.of_nat n) then Some (Z.to_nat i)
  else if (- Z.of_nat n <=? i) && (i <? 0) then Some (Z.to_nat (i + Z.of_nat n))
  else None.

Definition log_access (q : ref) (i : Z) (s : state) : state :=
  State (heap s) (tape s) ((q, i) :: accesses s).

(** [q[i]] as an expression.  An address that holds no object does not
    arise in a run; the model answers it with [TypeError]. *)
Definition getitem (q : ref) (i : Z) : M Q :=
  fun s =>
    let s1 := log_access q i s in
    match heap s !! q with
    | None => (Raise TypeError, s)
    | Some o =>
        match py_index (length (contents o)) i with
        | None => (Raise IndexError, s1)
        | Some n =>
            match contents o !! n with
            | Some v => (Ret v, s1)
            | None => (Raise IndexError, s1)
            end
        end
    end.

(** [q[i] = v] as an assignment. *)
Definition setitem (q : ref) (i : Z) (v : Q) : M unit :=
  fun s =>
    let s1 := log_access q i s in
    match heap s !! q with
    | None => (Raise TypeError, s)
    | Some o =>
        match py_index (length (contents o)) i with
        | None => (Raise IndexError, s1)
        | Some n =>
            (Ret tt,
             State (<[q := with_contents o (<[n := v]> (contents o))]> (heap s))
                   (tape s1) (accesses s1))
        end
    end.

(** [q[a], q[b] = q[b], q[a]]: the right-hand side is evaluated left to
    right, then the targets are assigned left to right. *)
Definition swap (q : ref) (a b : Z) : M unit :=
  x <- getitem q b ;;
  y <- getitem q a ;;
  setitem q a x ;;;
  setitem q b y.

(** [len(l)] *)
Definition len (l : ref) : M Z :=
  fun s =>
    match heap s !! l with
    | None => (Raise TypeError, s)
    | Some o => (Ret (Z.of_nat (length (contents o))), s)
    end.

(** Allocation of a new object at the end of the store. *)
Definition alloc (o : obj) : M ref :=
  fun s => (Ret (length (heap s)), State (heap s ++ [o]) (tape s) (accesses s)).

(** [list(data)]: a new list with the elements of [data]. *)
Definition list_of (data : ref) : M ref :=
  fun s =>
    match heap s !! data with
    | None => (Raise TypeError, s)
    | Some o => alloc (PyList (contents o)) s
    end.

(** ** The random generator *)

(** [random.randint(a, b)]: [ValueError] on an empty range; otherwise the
    next raw draw [r] of the tape gives [a + r mod (b - a + 1)], so every
    value of [a .. b] is the answer to some draw.  An exhausted tape keeps
    drawing [0]. *)
Definition randint (a b : Z) : M Z :=
  fun s =>
    if b <? a then (Raise ValueError, s)
    else
      match tape s with
      | [] => (Ret a, s)
      | r :: t => (Ret (a + r mod (b - a + 1)), State (heap s) t (accesses s))
      end.

(** ** [partition] *)

(** [range(a, b)] *)
Definition range (a b : Z) : list Z := seqZ a (b - a).

(** [value < pivot_value] *)
Definition Qltb (x y : Q) : bool :=
  Qnum x * QDen y <? Qnum y * QDen x.

(** The loop of [partition]:
    [for i, value in enumerate(q[j] for j in range(left, right))].
    The generator reads [q[j]] when the loop asks for the next item;
    [enumerate] numbers the items from [0], so [i] is [j - left]. *)
Fixpoint partition_loop (q : ref) (pivot_value : Q) (js : list Z)
    (i store_index : Z) : M Z :=
  match js with
  | [] => ret store_index
  | j :: js' =>
      value <- getitem q j ;;
      if Qltb value pivot_value then
        swap q store_index i ;;;
        partition_loop q pivot_value js' (i + 1) (store_index + 1)
      else
        partition_loop q pivot_value js' (i + 1) store_index
  end.

Definition partition (q : ref) (left right pivot_index : Z) : M Z :=
  pivot_value <- getitem q pivot_index ;;
  swap q pivot_index right ;;;
  store_index <- partition_loop q pivot_value (range left right) 0 left ;;
  swap q right store_index ;;;
  ret store_index.

(** ** [quickselect] *)

(** Lines 28-30: a deque is used as it is, anything else is copied into a
    new deque. *)
Definition as_deque (l : ref) : M ref :=
  fun s =>
    match heap s !! l with
    | None => (Raise TypeError, s)
    | Some (PyDeque _) => (Ret l, s)
    | Some (PyList xs) => alloc (PyDeque xs) s
    end.

(** The body of [quickselect], with the recursive call as a parameter. *)
Definition quickselect_body (rec : ref -> Z -> Z -> Z -> M Q)
    (l : ref) (left right k : Z) : M Q :=
  q <- as_deque l ;;
  if left =? right then getitem q left
  else
    r <- randint left right ;;
    pivot_index <- partition q left right r ;;
    if k =? pivot_index then getitem q k
    else if k <? pivot_index then rec q left (pivot_index - 1) k
    else rec q (pivot_index + 1) right k.

Fixpoint quickselect_fuel (fuel : nat) (l : ref) (left right k : Z) : M Q :=
  match fuel with
  | O => fun s => (Fuel, s)
  | S fuel' => quickselect_body (quickselect_fuel fuel') l left right k
  end.

(** The recursion depth never exceeds the width of the range, see
    [quickselect_fuel_enough] below. *)
Definition quickselect (l : ref) (left right k : Z) : M Q :=
  quickselect_fuel (S (Z.to_nat (right - left))) l left right k.

(** ** Numbers and their arithmetic *)

(** What an expression on numbers evaluates to: a finite number, or one of
    the special values of [float]. *)
Inductive value : Type :=
  | Num (q : Q)
  | Inf (negative : bool)
  | NaN.

Inductive arith_result : Type :=
  | Value (v : value)
  | Fails (e : arith_error).

(** The two operators that line 50 applies: [a + b] on two elements and
    [x / 2] on their sum. *)
Record arithmetic : Type := Arithmetic {
  add : Q -> Q -> arith_result;
  truediv2 : value -> arith_result
}.

(** [2 ** k] *)
Definition pow2 (k : Z) : Q :=
  if 0 <=? k then inject_Z (2 ^ k) else 1 # Z.to_pos (2 ^ (- k)).

(** The integer nearest to [x], the even one of the two on a tie. *)
Definition round_half_even (x : Q) : Z :=
  let f := Qfloor x in
  match (x - inject_Z f ?= 1 # 2)%Q with
  | Lt => f
  | Gt => f + 1
  | Eq => if Z.even f then f else f + 1
  end.

(** For [x > 0], the [k] with [2 ** k <= x < 2 ** (k + 1)]. *)
Definition floor_log2 (x : Q) : Z :=
  let k := Z.log2 (Qnum x) - Z.log2 (Zpos (Qden x)) in
  if Qle_bool (pow2 k) x then k else k - 1.

(** The binary64 [float] nearest to [x] (53 bits of precision, the even
    one on a tie, no exponent below [-1074]); [None] when the rounded value
    is beyond the largest float. *)
Definition round_float (x : Q) : option Q :=
  if Qeq_bool x 0 then Some 0%Q
  else
    let a := Qabs x in
    let u := Z.max (floor_log2 a - 52) (-1074) in
    let r := (inject_Z (round_half_even (a / pow2 u)) * pow2 u)%Q in
    if Qle_bool (pow2 1024) r then None
    else Some (Qred (if Qle_bool 0 x then r else - r)).

(** [Fraction]: both operators are exact. *)
Definition fraction_arith : arithmetic :=
  Arithmetic
    (fun a b => Value (Num (a + b)))
    (fun x => match x with
              | Num t => Value (Num (t / 2))
              | _ => Value x
              end).

(** [int]: [a + b] is exact; [x / 2] is the float nearest to the quotient,
    or [OverflowError] when there is none. *)
Definition int_arith : arithmetic :=
  Arithmetic
    (fun a b => Value (Num (a + b)))
    (fun x => match x with
              | Num t =>
                  match round_float (t / 2) with
                  | Some v => Value (Num v)
                  | None => Fails OverflowError
                  end
              | _ => Value x
              end).

(** [float]: both operators round to the nearest float; a sum beyond the
    largest float is [inf], and [inf / 2] is [inf]. *)
Definition float_arith : arithmetic :=
  Arithmetic
    (fun a b => match round_float (a + b) with
                | Some v => Value (Num v)
                | None => Value (Inf (negb (Qle_bool 0 (a + b))))
                end)
    (fun x => match x with
              | Num t =>
                  match round_float (t / 2) with
                  | Some v => Value (Num v)
                  | None => Value (Inf (negb (Qle_bool 0 t)))
                  end
              | _ => Value x
              end).

(** An operator of the number type, as a step of the computation. *)
Definition lift_arith (r : arith_result) : M value :=
  match r with
  | Value v => ret v
  | Fails e => raise (ArithmeticError e)
  end.

(** ** [median] *)

Definition median (ar : arithmetic) (data : ref) : M value :=
  data <- list_of data ;;
  n <- len data ;;
  if n =? 0 then raise StatisticsError
  else if n mod 2 =? 1 then
    v <- quickselect data 0 (n - 1) (n / 2) ;;
    ret (Num v)
  else
    let i := n / 2 in
    a <- quickselect data 0 (n - 1) (i - 1) ;;
    b <- quickselect data 0 (n - 1) i ;;
    sum <- lift_arith (add ar a b) ;;
    lift_arith (truediv2 ar sum).

(** A run of [median] on the values [xs], given as a list, with the raw
    draws [draws]. *)
Definition run_median (ar : arithmetic) (xs : list Q) (draws : list Z) :
    outcome value * state :=
  median ar 0%nat (State [PyList xs] draws []).

Definition zs (l : list Z) : list Q := map inject_Z l.

(** ** Vocabulary of the properties *)

(** The list after [q[a], q[b] = q[b], q[a]]. *)
Definition swapped (xs : list Q) (a b : nat) : list Q :=
  match xs !! a, xs !! b with
  | Some x, Some y => <[b := x]> (<[a := y]> xs)
  | _, _ => xs
  end.

(** A logged subscript [(r, i)] is in bounds for the buffer [q] of length
    [n] when it is a subscript of [q] with [0 <= i < n]. *)
Definition in_bounds (q : ref) (n : nat) (a : ref * Z) : Prop :=
  a.1 = q /\ 0 <= a.2 < Z.of_nat n.

(** [rearranged q xs xs' s s']: from [s] to [s'] the only change in the
    store is that the deque [q], holding [xs], now holds the permutation
    [xs'] of it, and every subscript logged on the way is in bounds. *)
Record rearranged (q : ref) (xs xs' : list Q) (s s' : state) : Prop :=
  Rearranged {
    re_heap : heap s' = <[q := PyDeque xs']> (heap s);
    re_perm : xs ≡ₚ xs';
    re_log : exists new, accesses s' = new ++ accesses s /\
                         Forall (in_bounds q (length xs)) new
  }.

(** The buffer a call of [quickselect] on [l] works on: [l] itself when it
    is a deque, the deque allocated next otherwise. *)
Definition working_buffer (l : ref) (o : obj) (h : list obj) : ref :=
  match o with
  | PyDeque _ => l
  | PyList _ => length h
  end.

(** The store after such a call has rearranged its buffer into [xs']. *)
Definition store_after (l : ref) (o : obj) (xs' : list Q) (h : list obj) : list obj :=
  match o with
  | PyDeque _ => <[l := PyDeque xs']> h
  | PyList _ => h ++ [PyDeque xs']
  end.

(** [total m]: [m] ends with a value or an exception in every state. *)
Definition total {A} (m : M A) : Prop := forall s, (m s).1 <> Fuel.

(** How the expression [(a + b) / 2] of line 50 ends in the arithmetic
    [ar]. *)
Definition halved_sum (ar : arithmetic) (a b : Q) : outcome value :=
  match add ar a b with
  | Value sum =>
      match truediv2 ar sum with
      | Value v => Ret v
      | Fails e => Raise (ArithmeticError e)
      end
  | Fails e => Raise (ArithmeticError e)
  end.

(** [agree q q' s s']: the object at [q] in [s] is the object at [q'] in
    [s'], and the two states have the same draws to come. *)
Definition agree (q q' : ref) (s s' : state) : Prop :=
  heap s !! q = heap s' !! q' /\ tape s = tape s'.

(** [sim q q' m m']: from states that agree, [m] and [m'] end the same way
    and in states that agree. *)
Definition sim {A} (q q' : ref) (m m' : M A) : Prop :=
  forall s s', agree q q' s s' ->
    (m s).1 = (m' s').1 /\ agree q q' (m s).2 (m' s').2.

(** ** The reference of the specification *)

Fixpoint insert_sorted (x : Q) (l : list Q) : list Q :=
  match l with
  | [] => [x]
  | y :: l' => if Qle_bool x y then x :: l else y :: insert_sorted x l'
  end.

(** [sorted(S)] *)
Definition sorted (l : list Q) : list Q := foldr insert_sorted [] l.

(** The median as the specification words it: the middle element of
    [sorted(S)] for an odd length, the mean of the two central ones for an
    even length, nothing for an empty [S]. *)
Definition spec_median (xs : list Q) : option Q :=
  let ys := sorted xs in
  let n := length ys in
  if (n =? 0)%nat then None
  else if Nat.odd n then ys !! (n / 2)%nat
  else
    match ys !! (n / 2 - 1)%nat, ys !! (n / 2)%nat with
    | Some a, Some b => Some ((a + b) / 2)%Q
    | _, _ => None
    end.

(** The postcondition the specification gives [partition]: the pivot value
    sits at [store_index], everything of [left .. store_index - 1] is below
    it and nothing of [store_index + 1 .. right] is. *)
Definition partitioned (xs : list Q) (left right store_index : Z)
    (pivot_value : Q) : bool :=
  match xs !! Z.to_nat store_index with
  | Some v => Qeq_bool v pivot_value
  | None => false
  end
  && forallb (fun i => match xs !! Z.to_nat i with
                       | Some v => Qltb v pivot_value
                       | None => false
                       end) (range left store_index)
  && forallb (fun i => match xs !! Z.to_nat i with
                       | Some v => negb (Qltb v pivot_value)
                       | None => false
                       end) (range (store_index + 1) (right + 1)).

(** The second call of [quickselect] on [data] works on the buffer of the
    first: [as_deque], lines 28-30, answers the same deque at the entry of
    both. *)
Definition second_call_shares_buffer (data : ref) (left right k : Z)
    (s : state) : Prop :=
  exists q s0 v s1,
    as_deque data s = (Ret q, s0) /\
    quickselect data left right k s = (Ret v, s1) /\
    (as_deque data s1).1 = Ret q.

(** * Properties of the model *)

(** ** Basic facts on the monad and on subscripting *)

Lemma bind_ret {A B} (m : M A) (f : A -> M B) s a s' :
  m s = (Ret a, s') -> bind m f s = f a s'.
Proof. intros H. unfold bind. now rewrite H. Qed.

Lemma bind_raise {A B} (m : M A) (f : A -> M B) s e s' :
  m s = (Raise e, s') -> bind m f s = (Raise e, s').
Proof. intros H. unfold bind. now rewrite H. Qed.

(** [run H]: take the step of the computation that [H] describes. *)
Tactic Notation "run" uconstr(H) := rewrite (bind_ret _ _ _ _ _ H).

Lemma py_index_nonneg (n : nat) (i : Z) :
  0 <= i < Z.of_nat n -> py_index n i = Some (Z.to_nat i).
Proof.
  intros [H0 Hn]. unfold py_index.
  apply Z.leb_le in H0. apply Z.ltb_lt in Hn. now rewrite H0, Hn.
Qed.

Lemma getitem_ok q i s o v :
  heap s !! q = Some o -> 0 <= i -> contents o !! Z.to_nat i = Some v ->
  getitem q i s = (Ret v, log_access q i s).
Proof.
  intros Hq Hi Hv. unfold getitem. rewrite Hq.
  pose proof (lookup_lt_Some _ _ _ Hv) as Hlt.
  rewrite py_index_nonneg by lia. now rewrite Hv.
Qed.

Lemma setitem_ok q i v s xs :
  heap s !! q = Some (PyDeque xs) -> 0 <= i < Z.of_nat (length xs) ->
  setitem q i v s =
    (Ret tt, State (<[q := PyDeque (<[Z.to_nat i := v]> xs)]> (heap s))
                   (tape s) ((q, i) :: accesses s)).
Proof.
  intros Hq Hi. unfold setitem. rewrite Hq. simpl.
  now rewrite py_index_nonneg by lia.
Qed.

Lemma swap_ok q a b s xs :
  heap s !! q = Some (PyDeque xs) ->
  0 <= a < Z.of_nat (length xs) -> 0 <= b < Z.of_nat (length xs) ->
  swap q a b s =
    (Ret tt,
     State (<[q := PyDeque (swapped xs (Z.to_nat a) (Z.to_nat b))]> (heap s))
           (tape s) ((q, b) :: (q, a) :: (q, a) :: (q, b) :: accesses s)).
Proof.
  intros Hq Ha Hb. unfold swap, swapped.
  destruct (lookup_lt_is_Some_2 xs (Z.to_nat a)) as [x Hx]; [lia|].
  destruct (lookup_lt_is_Some_2 xs (Z.to_nat b)) as [y Hy]; [lia|].
  rewrite Hx, Hy.
  erewrite bind_ret by (eapply getitem_ok; [exact Hq | lia | exact Hy]).
  erewrite bind_ret by (eapply getitem_ok; [exact Hq | lia | exact Hx]).
  erewrite bind_ret by (eapply setitem_ok; [exact Hq | exact Ha]).
  pose proof (lookup_lt_Some _ _ _ Hq) as Hlt.
  erewrite setitem_ok; simpl.
  - now rewrite list_insert_insert_eq.
  - now apply list_lookup_insert_eq.
  - now rewrite length_insert.
Qed.

Lemma swapped_length xs a b : length (swapped xs a b) = length xs.
Proof.
  unfold swapped. destruct (xs !! a), (xs !! b); trivial.
  now rewrite !length_insert.
Qed.

Lemma swapped_lookup xs a b x y i :
  xs !! a = Some x -> xs !! b = Some y ->
  swapped xs a b !! i =
    if decide (i = b) then Some x else if decide (i = a) then Some y else xs !! i.
Proof.
  intros Hx Hy. unfold swapped. rewrite Hx, Hy.
  pose proof (lookup_lt_Some _ _ _ Hx). pose proof (lookup_lt_Some _ _ _ Hy).
  destruct (decide (i = b)) as [->|Hb].
  - apply list_lookup_insert_eq. now rewrite length_insert.
  - rewrite list_lookup_insert_ne by congruence.
    destruct (decide (i = a)) as [->|Ha].
    + now apply list_lookup_insert_eq.
    + now rewrite list_lookup_insert_ne by congruence.
Qed.

Lemma swapped_Permutation xs a b : xs ≡ₚ swapped xs a b.
Proof.
  destruct (xs !! a) as [x|] eqn:Hx; [|unfold swapped; now rewrite Hx].
  destruct (xs !! b) as [y|] eqn:Hy; [|unfold swapped; now rewrite Hx, Hy].
  apply Permutation_inj. split; [now rewrite swapped_length|].
  exists (fun i => if decide (i = a) then b else if decide (i = b) then a else i).
  split.
  - intros i j. repeat case_decide; congruence.
  - intros i. rewrite (swapped_lookup _ _ _ _ _ _ Hx Hy).
    repeat case_decide; congruence.
Qed.

(** ** Rearranging one deque in place *)

Lemma rearranged_refl q xs s :
  heap s !! q = Some (PyDeque xs) -> rearranged q xs xs s s.
Proof.
  intros Hq. split.
  - symmetry. now apply list_insert_id.
  - reflexivity.
  - exists []. split; [reflexivity | constructor].
Qed.

Lemma rearranged_lookup q xs xs' s s' :
  heap s !! q = Some (PyDeque xs) -> rearranged q xs xs' s s' ->
  heap s' !! q = Some (PyDeque xs').
Proof.
  intros Hq [Hh _ _]. rewrite Hh. apply list_lookup_insert_eq.
  eapply lookup_lt_Some, Hq.
Qed.

Lemma rearranged_trans q xs xs' xs'' s s' s'' :
  rearranged q xs xs' s s' -> rearranged q xs' xs'' s' s'' ->
  rearranged q xs xs'' s s''.
Proof.
  intros [Hh Hp (n1 & Hl1 & Hb1)] [Hh' Hp' (n2 & Hl2 & Hb2)]. split.
  - rewrite Hh', Hh. apply list_insert_insert_eq.
  - etransitivity; eassumption.
  - exists (n2 ++ n1). split.
    + rewrite Hl2, Hl1. apply app_assoc.
    + apply Forall_app. split; [|assumption].
      rewrite (Permutation_length Hp). exact Hb2.
Qed.

Lemma rearranged_length q xs xs' s s' :
  rearranged q xs xs' s s' -> length xs' = length xs.
Proof. intros [_ Hp _]. symmetry. now apply Permutation_length. Qed.

Lemma rearranged_other q xs xs' s s' r :
  rearranged q xs xs' s s' -> r <> q -> heap s' !! r = heap s !! r.
Proof.
  intros [Hh _ _] Hr. rewrite Hh. apply list_lookup_insert_ne. congruence.
Qed.

Lemma rearranged_heap_length q xs xs' s s' :
  rearranged q xs xs' s s' -> length (heap s') = length (heap s).
Proof. intros [Hh _ _]. rewrite Hh. apply length_insert. Qed.

Lemma getitem_rearranged q i s xs :
  heap s !! q = Some (PyDeque xs) -> 0 <= i < Z.of_nat (length xs) ->
  exists v s', getitem q i s = (Ret v, s') /\ xs !! Z.to_nat i = Some v /\
               heap s' = heap s /\ rearranged q xs xs s s'.
Proof.
  intros Hq Hi.
  destruct (lookup_lt_is_Some_2 xs (Z.to_nat i)) as [v Hv]; [lia|].
  exists v, (log_access q i s). split; [|split; [exact Hv|split; [reflexivity|]]].
  - eapply getitem_ok; [exact Hq | lia | exact Hv].
  - split; simpl.
    + symmetry. now apply list_insert_id.
    + reflexivity.
    + exists [(q, i)]. split; [reflexivity|].
      repeat constructor; simpl; lia.
Qed.

Lemma swap_rearranged q a b s xs :
  heap s !! q = Some (PyDeque xs) ->
  0 <= a < Z.of_nat (length xs) -> 0 <= b < Z.of_nat (length xs) ->
  exists s', swap q a b s = (Ret tt, s') /\
             rearranged q xs (swapped xs (Z.to_nat a) (Z.to_nat b)) s s'.
Proof.
  intros Hq Ha Hb. rewrite (swap_ok _ _ _ _ _ Hq Ha Hb).
  eexists. split; [reflexivity|].
  split; simpl.
  - reflexivity.
  - apply swapped_Permutation.
  - exists [(q, b); (q, a); (q, a); (q, b)]. split; [reflexivity|].
    repeat constructor; simpl; lia.
Qed.

(** ** The loop of [partition] *)

Lemma range_length a b : a <= b -> Z.of_nat (length (range a b)) = b - a.
Proof. intros H. unfold range. rewrite length_seqZ. lia. Qed.

Lemma range_bounds a b (n : nat) :
  0 <= a -> b <= Z.of_nat n ->
  Forall (fun j => 0 <= j < Z.of_nat n) (range a b).
Proof.
  intros Ha Hb. unfold range. apply Forall_seqZ. intros j Hj. lia.
Qed.

Lemma Qltb_lt x y : Qltb x y = true <-> (x < y)%Q.
Proof. unfold Qltb, Qlt. apply Z.ltb_lt. Qed.

Lemma Qltb_ge x y : Qltb x y = false <-> (y <= x)%Q.
Proof. unfold Qltb, Qle. apply Z.ltb_ge. Qed.

Section PartitionLoop.

(** The buffer and the pivot value are fixed during the loop. *)
Variable q : ref.
Variable pivot_value : Q.

Lemma partition_loop_ok js :
  forall i store_index s xs,
    heap s !! q = Some (PyDeque xs) ->
    Forall (fun j => 0 <= j < Z.of_nat (length xs)) js ->
    0 <= i -> i + Z.of_nat (length js) <= Z.of_nat (length xs) ->
    0 <= store_index ->
    store_index + Z.of_nat (length js) <= Z.of_nat (length xs) ->
    exists r xs' s',
      partition_loop q pivot_value js i store_index s = (Ret r, s') /\
      store_index <= r <= store_index + Z.of_nat (length js) /\
      rearranged q xs xs' s s'.
Proof.
  induction js as [|j js IH]; intros i st s xs Hq Hjs Hi Hin Hst Hsn.
  - exists st, xs, s. simpl. split; [reflexivity|]. split; [lia|].
    now apply rearranged_refl.
  - apply Forall_cons in Hjs as [Hj Hjs]. simpl length in *.
    destruct (getitem_rearranged q j s xs Hq Hj) as (v & s1 & Hg & _ & _ & R1).
    pose proof (rearranged_lookup _ _ _ _ _ Hq R1) as Hq1.
    simpl. run Hg.
    destruct (Qltb v pivot_value).
    + destruct (swap_rearranged q st i s1 xs Hq1) as (s2 & Hs & R2); [lia..|].
      run Hs.
      pose proof (rearranged_lookup _ _ _ _ _ Hq1 R2) as Hq2.
      pose proof (swapped_length xs (Z.to_nat st) (Z.to_nat i)) as Hlen.
      destruct (IH (i + 1) (st + 1) s2 _ Hq2) as (r & xs' & s' & Hr & Hb & R3);
        [now rewrite Hlen | lia | rewrite Hlen; lia | lia | rewrite Hlen; lia |].
      exists r, xs', s'. split; [exact Hr|]. split; [lia|].
      eapply rearranged_trans; [exact R1|].
      eapply rearranged_trans; [exact R2 | exact R3].
    + destruct (IH (i + 1) st s1 _ Hq1) as (r & xs' & s' & Hr & Hb & R3);
        [assumption | lia | lia | lia | lia |].
      exists r, xs', s'. split; [exact Hr|]. split; [lia|].
      eapply rearranged_trans; [exact R1 | exact R3].
Qed.

(** With [left = 0] the counter [i] of the loop is the index [j] read, and
    the loop keeps the usual invariant: below [store_index] everything is
    less than the pivot value, from [store_index] to [i - 1] nothing is, and
    from the end of the scan on nothing has moved. *)
Lemma partition_loop_from_zero (n : nat) :
  forall i st s xs,
    heap s !! q = Some (PyDeque xs) ->
    0 <= st <= i -> i + Z.of_nat n < Z.of_nat (length xs) ->
    (forall m v, 0 <= m < st -> xs !! Z.to_nat m = Some v ->
                 Qltb v pivot_value = true) ->
    (forall m v, st <= m < i -> xs !! Z.to_nat m = Some v ->
                 Qltb v pivot_value = false) ->
    exists r xs' s',
      partition_loop q pivot_value (seqZ i (Z.of_nat n)) i st s = (Ret r, s') /\
      heap s' = <[q := PyDeque xs']> (heap s) /\
      length xs' = length xs /\
      st <= r <= i + Z.of_nat n /\
      (forall m v, 0 <= m < r -> xs' !! Z.to_nat m = Some v ->
                   Qltb v pivot_value = true) /\
      (forall m v, r <= m < i + Z.of_nat n -> xs' !! Z.to_nat m = Some v ->
                   Qltb v pivot_value = false) /\
      (forall m, i + Z.of_nat n <= m -> xs' !! Z.to_nat m = xs !! Z.to_nat m).
Proof.
  induction n as [|n IH]; intros i st s xs Hq Hst Hin Hlo Hhi.
  - exists st, xs, s. simpl. split; [reflexivity|].
    split; [symmetry; now apply list_insert_id|].
    split; [reflexivity|]. split; [lia|]. split; [exact Hlo|].
    split; [|reflexivity]. intros m v Hm. apply Hhi. lia.
  - rewrite seqZ_cons by lia. cbn [partition_loop].
    replace (Z.pred (Z.of_nat (S n))) with (Z.of_nat n) by lia.
    replace (Z.succ i) with (i + 1) by lia.
    destruct (getitem_rearranged q i s xs Hq) as (v & s1 & Hg & Hv & Hh1 & R1); [lia|].
    pose proof (rearranged_lookup _ _ _ _ _ Hq R1) as Hq1.
    run Hg.
    destruct (Qltb v pivot_value) eqn:Hlt.
    + destruct (lookup_lt_is_Some_2 xs (Z.to_nat st)) as [y Hy]; [lia|].
      run (swap_ok q st i s1 xs Hq1 ltac:(lia) ltac:(lia)).
      set (xs1 := swapped xs (Z.to_nat st) (Z.to_nat i)).
      set (s2 := State _ _ _).
      assert (Hl1 : forall m, xs1 !! m =
                if decide (m = Z.to_nat i) then Some y
                else if decide (m = Z.to_nat st) then Some v else xs !! m)
        by (intros m; apply swapped_lookup; assumption).
      assert (Hq2 : heap s2 !! q = Some (PyDeque xs1)).
      { simpl. apply list_lookup_insert_eq. eapply lookup_lt_Some, Hq1. }
      destruct (IH (i + 1) (st + 1) s2 xs1 Hq2)
        as (r & xs' & s' & Hr & Hh & Hlen & Hb & Hlo' & Hhi' & Hout).
      * lia.
      * unfold xs1. rewrite swapped_length. lia.
      * intros m w Hm. rewrite Hl1. repeat case_decide.
        -- intros [= <-]. assert (st = i) by lia. subst. congruence.
        -- intros [= <-]. exact Hlt.
        -- apply Hlo. lia.
      * intros m w Hm. rewrite Hl1. repeat case_decide.
        -- intros [= <-]. apply (Hhi st); [lia | exact Hy].
        -- lia.
        -- apply Hhi. lia.
      * exists r, xs', s'. split; [exact Hr|]. split.
        { rewrite Hh. simpl. rewrite list_insert_insert_eq. now rewrite Hh1. }
        split; [rewrite Hlen; apply swapped_length|].
        split; [lia|]. split; [exact Hlo'|]. split.
        { intros m w Hm. apply Hhi'. lia. }
        intros m Hm. rewrite Hout by lia. rewrite Hl1.
        repeat case_decide; try lia. reflexivity.
    + destruct (IH (i + 1) st s1 xs Hq1)
        as (r & xs' & s' & Hr & Hh & Hlen & Hb & Hlo' & Hhi' & Hout).
      * lia.
      * lia.
      * exact Hlo.
      * intros m w Hm Hw. destruct (Z.eq_dec m i) as [->|Hne].
        -- congruence.
        -- apply (Hhi m); [lia | exact Hw].
      * exists r, xs', s'. split; [exact Hr|]. split; [now rewrite Hh, Hh1|].
        split; [exact Hlen|]. split; [lia|]. split; [exact Hlo'|]. split.
        { intros m w Hm. apply Hhi'. lia. }
        intros m Hm. apply Hout. lia.
Qed.

End PartitionLoop.

(** ** [partition] on a valid call *)

Lemma partition_ok q left right pivot_index s xs :
  heap s !! q = Some (PyDeque xs) ->
  0 <= left <= pivot_index -> pivot_index <= right < Z.of_nat (length xs) ->
  exists store_index xs' s',
    partition q left right pivot_index s = (Ret store_index, s') /\
    left <= store_index <= right /\
    rearranged q xs xs' s s'.
Proof.
  intros Hq Hl Hr. unfold partition.
  destruct (getitem_rearranged q pivot_index s xs Hq) as (pv & s1 & Hg & _ & _ & R1);
    [lia|].
  run Hg.
  pose proof (rearranged_lookup _ _ _ _ _ Hq R1) as Hq1.
  destruct (swap_rearranged q pivot_index right s1 xs Hq1) as (s2 & Hs & R2); [lia..|].
  run Hs.
  pose proof (rearranged_lookup _ _ _ _ _ Hq1 R2) as Hq2.
  set (xs2 := swapped xs (Z.to_nat pivot_index) (Z.to_nat right)) in *.
  assert (Hlen2 : length xs2 = length xs) by apply swapped_length.
  pose proof (range_length left right ltac:(lia)) as Hrl.
  destruct (partition_loop_ok q pv (range left right) 0 left s2 xs2 Hq2)
    as (st & xs3 & s3 & Hp & Hb & R3);
    [apply range_bounds; lia | lia | lia | lia | lia |].
  run Hp.
  pose proof (rearranged_lookup _ _ _ _ _ Hq2 R3) as Hq3.
  pose proof (rearranged_length _ _ _ _ _ R3) as Hlen3.
  destruct (swap_rearranged q right st s3 xs3 Hq3) as (s4 & Hs4 & R4); [lia..|].
  run Hs4.
  exists st, (swapped xs3 (Z.to_nat right) (Z.to_nat st)), s4.
  split; [reflexivity|]. split; [lia|].
  eapply rearranged_trans; [exact R1|].
  eapply rearranged_trans; [exact R2|].
  eapply rearranged_trans; [exact R3 | exact R4].
Qed.

(** ** [partition] from the left end of the buffer *)

(** For [left = 0] the postcondition of the specification holds: the pivot
    value ends at the index returned, everything before it is less, nothing
    after it up to [right] is, the elements beyond [right] have not moved,
    and the buffer is a permutation of what it was. *)
Lemma partition_from_zero q right pivot_index s xs pivot_value :
  heap s !! q = Some (PyDeque xs) ->
  0 <= pivot_index <= right -> right < Z.of_nat (length xs) ->
  xs !! Z.to_nat pivot_index = Some pivot_value ->
  exists store_index xs' s',
    partition q 0 right pivot_index s = (Ret store_index, s') /\
    heap s' = <[q := PyDeque xs']> (heap s) /\
    xs ≡ₚ xs' /\
    0 <= store_index <= right /\
    xs' !! Z.to_nat store_index = Some pivot_value /\
    (forall m v, 0 <= m < store_index -> xs' !! Z.to_nat m = Some v ->
                 (v < pivot_value)%Q) /\
    (forall m v, store_index < m <= right -> xs' !! Z.to_nat m = Some v ->
                 (pivot_value <= v)%Q) /\
    (forall m, right < m -> xs' !! Z.to_nat m = xs !! Z.to_nat m).
Proof.
  intros Hq Hp Hr Hpv.
  destruct (partition_ok q 0 right pivot_index s xs Hq)
    as (st0 & xs0 & s0 & Hpart & _ & R); [lia..|].
  pose proof (rearranged_lookup _ _ _ _ _ Hq R) as Hq0.
  pose proof (re_perm _ _ _ _ _ R) as Hperm.
  revert Hpart. unfold partition.
  run (getitem_ok q pivot_index s _ _ Hq ltac:(lia) Hpv).
  set (s1 := log_access q pivot_index s).
  assert (Hq1 : heap s1 !! q = Some (PyDeque xs)) by exact Hq.
  destruct (lookup_lt_is_Some_2 xs (Z.to_nat right)) as [y Hy]; [lia|].
  run (swap_ok q pivot_index right s1 xs Hq1 ltac:(lia) ltac:(lia)).
  set (xs1 := swapped xs (Z.to_nat pivot_index) (Z.to_nat right)).
  set (s2 := State _ _ _).
  assert (Hl1 : forall m, xs1 !! m =
            if decide (m = Z.to_nat right) then Some pivot_value
            else if decide (m = Z.to_nat pivot_index) then Some y else xs !! m)
    by (intros m; apply swapped_lookup; assumption).
  assert (Hlen1 : length xs1 = length xs) by apply swapped_length.
  assert (Hq2 : heap s2 !! q = Some (PyDeque xs1)).
  { simpl. apply list_lookup_insert_eq. eapply lookup_lt_Some, Hq. }
  unfold range. replace (right - 0) with (Z.of_nat (Z.to_nat right)) by lia.
  destruct (partition_loop_from_zero q pivot_value (Z.to_nat right) 0 0 s2 xs1 Hq2)
    as (r & xs2 & s3 & Hloop & Hh3 & Hlen2 & Hb & Hlo & Hhi & Hout);
    [lia | lia | lia | lia |].
  run Hloop.
  assert (Hq3 : heap s3 !! q = Some (PyDeque xs2)).
  { rewrite Hh3. apply list_lookup_insert_eq. eapply lookup_lt_Some, Hq2. }
  assert (Hright : xs2 !! Z.to_nat right = Some pivot_value).
  { rewrite Hout by lia. rewrite Hl1. now rewrite decide_True. }
  destruct (lookup_lt_is_Some_2 xs2 (Z.to_nat r)) as [z Hz]; [lia|].
  run (swap_ok q right r s3 xs2 Hq3 ltac:(lia) ltac:(lia)).
  set (xs3 := swapped xs2 (Z.to_nat right) (Z.to_nat r)).
  assert (Hl3 : forall m, xs3 !! m =
            if decide (m = Z.to_nat r) then Some pivot_value
            else if decide (m = Z.to_nat right) then Some z else xs2 !! m)
    by (intros m; apply swapped_lookup; assumption).
  unfold ret. intros Hpart. injection Hpart as <- <-.
  exists r, xs3, (State (<[q := PyDeque xs3]> (heap s3)) (tape s3)
                    ((q, r) :: (q, right) :: (q, right) :: (q, r) :: accesses s3)).
  split; [reflexivity|].
  assert (Hheap : <[q := PyDeque xs3]> (heap s3) = <[q := PyDeque xs3]> (heap s)).
  { rewrite Hh3. simpl. now rewrite !list_insert_insert_eq. }
  split; [exact Hheap|]. split.
  { simpl in Hq0. rewrite Hheap in Hq0.
    rewrite list_lookup_insert_eq in Hq0 by (eapply lookup_lt_Some, Hq).
    injection Hq0 as <-. exact Hperm. }
  split; [lia|]. split; [|split; [|split]].
  - rewrite Hl3. now rewrite decide_True.
  - intros m v Hm. rewrite Hl3. repeat case_decide; try lia.
    intros Hv. apply Qltb_lt. apply (Hlo m); [lia | exact Hv].
  - intros m v Hm. rewrite Hl3. repeat case_decide; try lia.
    + intros [= <-]. apply Qltb_ge. apply (Hhi r); [lia | exact Hz].
    + intros Hv. apply Qltb_ge. apply (Hhi m); [lia | exact Hv].
  - intros m Hm. rewrite Hl3. repeat case_decide; try lia.
    rewrite Hout by lia. rewrite Hl1. repeat case_decide; try lia. reflexivity.
Qed.

(** ** [quickselect] on a valid call *)

Lemma as_deque_deque q s xs :
  heap s !! q = Some (PyDeque xs) -> as_deque q s = (Ret q, s).
Proof. intros Hq. unfold as_deque. now rewrite Hq. Qed.

Lemma as_deque_list l s xs :
  heap s !! l = Some (PyList xs) ->
  as_deque l s =
    (Ret (length (heap s)), State (heap s ++ [PyDeque xs]) (tape s) (accesses s)).
Proof. intros Hl. unfold as_deque. now rewrite Hl. Qed.

Lemma randint_ok a b s :
  a <= b ->
  exists r s', randint a b s = (Ret r, s') /\ a <= r <= b /\
               heap s' = heap s /\ accesses s' = accesses s.
Proof.
  intros Hab. unfold randint.
  destruct (Z.ltb_spec b a) as [?|_]; [lia|].
  destruct (tape s) as [|r t].
  - exists a, s. repeat split; lia.
  - eexists _, _. split; [reflexivity|]. simpl.
    pose proof (Z.mod_pos_bound r (b - a + 1) ltac:(lia)).
    repeat split; lia.
Qed.

(** Every value of the range is the answer to some draw. *)
Lemma randint_any a b c s t :
  a <= c <= b -> tape s = (c - a) :: t ->
  randint a b s = (Ret c, State (heap s) t (accesses s)).
Proof.
  intros Hc Ht. unfold randint. rewrite Ht.
  destruct (Z.ltb_spec b a) as [?|_]; [lia|].
  rewrite Z.mod_small by lia. do 3 f_equal. lia.
Qed.

Lemma randint_rearranged q xs a b s :
  heap s !! q = Some (PyDeque xs) -> a <= b ->
  exists r s', randint a b s = (Ret r, s') /\ a <= r <= b /\
               rearranged q xs xs s s'.
Proof.
  intros Hq Hab. destruct (randint_ok a b s Hab) as (r & s' & Hr & Hb & Hh & Ha).
  exists r, s'. split; [exact Hr|]. split; [exact Hb|]. split.
  - rewrite Hh. symmetry. now apply list_insert_id.
  - reflexivity.
  - exists []. split; [exact Ha | constructor].
Qed.

(** One call of [quickselect] on a valid range either answers with an
    element of the buffer, or makes its recursive call on a valid range
    that is strictly narrower. *)
Lemma quickselect_body_step q left right k s xs :
  heap s !! q = Some (PyDeque xs) ->
  0 <= left <= k -> k <= right < Z.of_nat (length xs) ->
  (exists v s' xs',
      (forall rec, quickselect_body rec q left right k s = (Ret v, s')) /\
      rearranged q xs xs' s s' /\ v ∈ xs)
  \/
  (exists left' right' s' xs',
      (forall rec, quickselect_body rec q left right k s = rec q left' right' k s') /\
      rearranged q xs xs' s s' /\
      left <= left' /\ left' <= k <= right' /\ right' <= right /\
      right' - left' < right - left).
Proof.
  intros Hq Hl Hr.
  assert (Hbody : forall rec,
    quickselect_body rec q left right k s =
      (if left =? right then getitem q left
       else
         r <- randint left right ;;
         pivot_index <- partition q left right r ;;
         if k =? pivot_index then getitem q k
         else if k <? pivot_index then rec q left (pivot_index - 1) k
         else rec q (pivot_index + 1) right k) s).
  { intros rec. unfold quickselect_body.
    now run (as_deque_deque _ _ _ Hq). }
  destruct (Z.eqb_spec left right) as [->|Hne].
  - left. destruct (getitem_rearranged q right s xs Hq) as (v & s' & Hg & Hv & _ & R);
      [lia|].
    exists v, s', xs. split; [intros rec; rewrite Hbody; exact Hg|].
    split; [exact R|]. eapply list_elem_of_lookup_2, Hv.
  - destruct (randint_rearranged q xs left right s Hq) as (r & s1 & Hr1 & Hrb & R1);
      [lia|].
    pose proof (rearranged_lookup _ _ _ _ _ Hq R1) as Hq1.
    destruct (partition_ok q left right r s1 xs Hq1) as (p & xs2 & s2 & Hp & Hpb & R2);
      [lia..|].
    pose proof (rearranged_lookup _ _ _ _ _ Hq1 R2) as Hq2.
    pose proof (rearranged_length _ _ _ _ _ R2) as Hlen2.
    pose proof (rearranged_trans _ _ _ _ _ _ _ R1 R2) as R12.
    destruct (Z.eqb_spec k p) as [Hkp|Hkp].
    + left.
      destruct (getitem_rearranged q k s2 xs2 Hq2) as (v & s3 & Hg & Hv & _ & R3);
        [lia|].
      exists v, s3, xs2. split; [|split].
      * intros rec. rewrite Hbody.
        run Hr1. run Hp.
        destruct (Z.eqb_spec k p); [exact Hg | contradiction].
      * eapply rearranged_trans; [exact R12 | exact R3].
      * rewrite (re_perm _ _ _ _ _ R12). eapply list_elem_of_lookup_2, Hv.
    + right. destruct (Z.ltb_spec k p) as [Hlt|Hge].
      * exists left, (p - 1), s2, xs2. split; [|split; [exact R12 | lia]].
        intros rec. rewrite Hbody.
        run Hr1. run Hp.
        destruct (Z.eqb_spec k p); [contradiction|].
        destruct (Z.ltb_spec k p); [reflexivity | lia].
      * exists (p + 1), right, s2, xs2. split; [|split; [exact R12 | lia]].
        intros rec. rewrite Hbody.
        run Hr1. run Hp.
        destruct (Z.eqb_spec k p); [contradiction|].
        destruct (Z.ltb_spec k p); [lia | reflexivity].
Qed.

(** With a budget above the width of the range the recursion ends with an
    element of the buffer. *)
Lemma quickselect_fuel_enough fuel :
  forall q left right k s xs,
    heap s !! q = Some (PyDeque xs) ->
    0 <= left <= k -> k <= right < Z.of_nat (length xs) ->
    right - left < Z.of_nat fuel ->
    exists v s' xs',
      quickselect_fuel fuel q left right k s = (Ret v, s') /\
      rearranged q xs xs' s s' /\ v ∈ xs.
Proof.
  induction fuel as [|fuel IH]; intros q left right k s xs Hq Hl Hr Hf; [lia|].
  simpl.
  destruct (quickselect_body_step q left right k s xs Hq Hl Hr)
    as [(v & s' & xs' & Hb & R & Hv) | (l' & r' & s' & xs' & Hb & R & H1 & H2 & H3 & H4)].
  - exists v, s', xs'. now rewrite Hb.
  - rewrite Hb.
    pose proof (rearranged_lookup _ _ _ _ _ Hq R) as Hq'.
    pose proof (rearranged_length _ _ _ _ _ R) as Hlen.
    destruct (IH q l' r' k s' xs' Hq') as (v & s'' & xs'' & Hv & R' & Hin);
      [lia | lia | lia |].
    exists v, s'', xs''. split; [exact Hv|]. split.
    + eapply rearranged_trans; eassumption.
    + now rewrite (re_perm _ _ _ _ _ R).
Qed.

(** Called on a list, [quickselect] does what it does on a new deque with
    the same elements. *)
Lemma quickselect_fuel_list fuel l left right k s xs :
  heap s !! l = Some (PyList xs) ->
  quickselect_fuel (S fuel) l left right k s =
  quickselect_fuel (S fuel) (length (heap s)) left right k
    (State (heap s ++ [PyDeque xs]) (tape s) (accesses s)).
Proof.
  intros Hl. simpl. unfold quickselect_body.
  run (as_deque_list _ _ _ Hl).
  erewrite (bind_ret (as_deque _)); [reflexivity|].
  eapply as_deque_deque. simpl. apply list_lookup_middle. reflexivity.
Qed.

Lemma quickselect_ok l o left right k s :
  heap s !! l = Some o ->
  0 <= left <= k -> k <= right < Z.of_nat (length (contents o)) ->
  exists v s' xs',
    quickselect l left right k s = (Ret v, s') /\
    v ∈ contents o /\ contents o ≡ₚ xs' /\
    heap s' = store_after l o xs' (heap s) /\
    exists new, accesses s' = new ++ accesses s /\
      Forall (in_bounds (working_buffer l o (heap s)) (length (contents o))) new.
Proof.
  intros Hl Hlk Hkr. unfold quickselect.
  destruct o as [xs|xs]; cbn [contents working_buffer store_after] in *.
  - rewrite (quickselect_fuel_list _ _ _ _ _ _ _ Hl).
    set (s0 := State (heap s ++ [PyDeque xs]) (tape s) (accesses s)).
    assert (Hq : heap s0 !! length (heap s) = Some (PyDeque xs))
      by (simpl; now apply list_lookup_middle).
    destruct (quickselect_fuel_enough (S (Z.to_nat (right - left)))
                (length (heap s)) left right k s0 xs Hq Hlk Hkr ltac:(lia))
      as (v & s' & xs' & Hv & [Hh Hp Hlog] & Hin).
    exists v, s', xs'. repeat split; try assumption.
    rewrite Hh. simpl.
    replace (length (heap s)) with (length (heap s) + 0)%nat at 1 by lia.
    now rewrite insert_app_r.
  - destruct (quickselect_fuel_enough (S (Z.to_nat (right - left)))
                l left right k s xs Hl Hlk Hkr ltac:(lia))
      as (v & s' & xs' & Hv & [Hh Hp Hlog] & Hin).
    exists v, s', xs'. repeat split; assumption.
Qed.

(** ** [median] *)

Lemma list_of_ok data o s :
  heap s !! data = Some o ->
  list_of data s =
    (Ret (length (heap s)),
     State (heap s ++ [PyList (contents o)]) (tape s) (accesses s)).
Proof. intros Hd. unfold list_of. now rewrite Hd. Qed.

Lemma len_ok l o s :
  heap s !! l = Some o -> len l s = (Ret (Z.of_nat (length (contents o))), s).
Proof. intros Hl. unfold len. now rewrite Hl. Qed.

Lemma median_after_copy ar data o s :
  heap s !! data = Some o ->
  median ar data s =
    (let n := Z.of_nat (length (contents o)) in
     let d := length (heap s) in
     if n =? 0 then raise StatisticsError
     else if n mod 2 =? 1 then
       v <- quickselect d 0 (n - 1) (n / 2) ;;
       ret (Num v)
     else
       a <- quickselect d 0 (n - 1) (n / 2 - 1) ;;
       b <- quickselect d 0 (n - 1) (n / 2) ;;
       sum <- lift_arith (add ar a b) ;;
       lift_arith (truediv2 ar sum))
      (State (heap s ++ [PyList (contents o)]) (tape s) (accesses s)).
Proof.
  intros Hd. unfold median. run (list_of_ok _ _ _ Hd).
  erewrite bind_ret; [reflexivity|].
  apply (len_ok _ (PyList (contents o))). simpl. now apply list_lookup_middle.
Qed.

Lemma median_empty ar data o s :
  heap s !! data = Some o -> contents o = [] ->
  median ar data s =
    (Raise StatisticsError, State (heap s ++ [PyList []]) (tape s) (accesses s)).
Proof.
  intros Hd He. rewrite (median_after_copy _ _ _ _ Hd). now rewrite He.
Qed.

(** The two operators of line 50 leave the state alone. *)
Lemma halved_sum_run ar a b s :
  (sum <- lift_arith (add ar a b) ;; lift_arith (truediv2 ar sum)) s =
  (halved_sum ar a b, s).
Proof.
  unfold halved_sum, bind, lift_arith.
  destruct (add ar a b) as [sum|e]; [|reflexivity].
  simpl. destruct (truediv2 ar sum); reflexivity.
Qed.

Lemma halved_sum_cases ar a b :
  (exists v, halved_sum ar a b = Ret v) \/
  (exists e, halved_sum ar a b = Raise (ArithmeticError e)).
Proof.
  unfold halved_sum. destruct (add ar a b) as [sum|e]; [|right; now exists e].
  destruct (truediv2 ar sum) as [v|e]; [left; now exists v | right; now exists e].
Qed.

(** The run of [median] on an input of odd length: one call of
    [quickselect] on the copy [data], which works on a deque of its own. *)
Lemma median_odd_run ar data o s :
  heap s !! data = Some o ->
  Z.of_nat (length (contents o)) mod 2 = 1 ->
  exists v s' xs',
    median ar data s = (Ret (Num v), s') /\
    v ∈ contents o /\ contents o ≡ₚ xs' /\
    heap s' = heap s ++ [PyList (contents o); PyDeque xs'] /\
    exists new, accesses s' = new ++ accesses s /\
      Forall (in_bounds (S (length (heap s))) (length (contents o))) new.
Proof.
  intros Hd Hodd. rewrite (median_after_copy _ _ _ _ Hd). cbv zeta.
  set (xs := contents o) in *.
  set (s1 := State (heap s ++ [PyList xs]) (tape s) (accesses s)).
  set (d := length (heap s)).
  assert (Hd1 : heap s1 !! d = Some (PyList xs))
    by (simpl; now apply list_lookup_middle).
  set (n := Z.of_nat (length xs)) in *.
  pose proof (Z.div_mod n 2 ltac:(lia)) as Hdm.
  assert (Hn : 0 <= n) by (unfold n; lia).
  destruct (Z.eqb_spec n 0) as [Hn0|_]; [rewrite Hn0 in Hodd; discriminate|].
  destruct (Z.eqb_spec (n mod 2) 1) as [_|?]; [|contradiction].
  destruct (quickselect_ok d (PyList xs) 0 (n - 1) (n / 2) s1 Hd1)
    as (v & s' & xs' & Hq & Hin & Hp & Hh & new & Hlog & Hb);
    [lia | cbn [contents]; lia |].
  run Hq. exists v, s', xs'. split; [reflexivity|].
  split; [exact Hin|]. split; [exact Hp|]. split.
  - rewrite Hh. simpl. now rewrite <- app_assoc.
  - exists new. split; [exact Hlog|].
    cbn [working_buffer contents] in Hb. simpl in Hb.
    rewrite length_app in Hb. simpl in Hb.
    now replace (length (heap s) + 1)%nat with (S (length (heap s))) in Hb by lia.
Qed.

(** The run of [median] on a non-empty input of even length: two calls of
    [quickselect] on the copy [data], each on a deque of its own, then the
    two operators on the values returned. *)
Lemma median_even_run ar data o s :
  heap s !! data = Some o -> contents o <> [] ->
  Z.of_nat (length (contents o)) mod 2 = 0 ->
  let xs := contents o in
  let n := Z.of_nat (length xs) in
  let d := length (heap s) in
  let s1 := State (heap s ++ [PyList xs]) (tape s) (accesses s) in
  exists a s2 xs2 b s3 xs3,
    quickselect d 0 (n - 1) (n / 2 - 1) s1 = (Ret a, s2) /\
    heap s2 = heap s ++ [PyList xs; PyDeque xs2] /\
    quickselect d 0 (n - 1) (n / 2) s2 = (Ret b, s3) /\
    heap s3 = heap s ++ [PyList xs; PyDeque xs2; PyDeque xs3] /\
    median ar data s = (halved_sum ar a b, s3) /\
    a ∈ xs /\ b ∈ xs /\ xs ≡ₚ xs2 /\ xs ≡ₚ xs3 /\
    (exists new, accesses s2 = new ++ accesses s /\
       Forall (in_bounds (S d) (length xs)) new) /\
    (exists new, accesses s3 = new ++ accesses s2 /\
       Forall (in_bounds (S (S d)) (length xs)) new).
Proof.
  intros Hd Hne Heven xs n d s1. change (n mod 2 = 0) in Heven.
  rewrite (median_after_copy _ _ _ _ Hd). cbv zeta. fold xs n d s1.
  assert (Hd1 : heap s1 !! d = Some (PyList xs))
    by (simpl; now apply list_lookup_middle).
  assert (Hn : 0 < n)
    by (unfold n, xs; destruct (contents o); [congruence | simpl; lia]).
  pose proof (Z.div_mod n 2 ltac:(lia)) as Hdm.
  destruct (Z.eqb_spec n 0) as [?|_]; [lia|].
  destruct (Z.eqb_spec (n mod 2) 1) as [?|_]; [lia|].
  destruct (quickselect_ok d (PyList xs) 0 (n - 1) (n / 2 - 1) s1 Hd1)
    as (a & s2 & xs2 & Hq2 & Hina & Hp2 & Hh2 & new2 & Hlog2 & Hb2);
    [lia | cbn [contents]; lia |].
  cbn [store_after working_buffer contents] in Hh2, Hb2.
  assert (Hh2' : heap s2 = heap s ++ [PyList xs; PyDeque xs2])
    by (rewrite Hh2; simpl; now rewrite <- app_assoc).
  assert (Hd2 : heap s2 !! d = Some (PyList xs))
    by (rewrite Hh2; now apply lookup_app_l_Some).
  destruct (quickselect_ok d (PyList xs) 0 (n - 1) (n / 2) s2 Hd2)
    as (b & s3 & xs3 & Hq3 & Hinb & Hp3 & Hh3 & new3 & Hlog3 & Hb3);
    [lia | cbn [contents]; lia |].
  cbn [store_after working_buffer contents] in Hh3, Hb3.
  exists a, s2, xs2, b, s3, xs3.
  split; [exact Hq2|]. split; [exact Hh2'|]. split; [exact Hq3|].
  split; [rewrite Hh3, Hh2'; now rewrite <- app_assoc|].
  split; [run Hq2; run Hq3; apply halved_sum_run|].
  split; [exact Hina|]. split; [exact Hinb|]. split; [exact Hp2|].
  split; [exact Hp3|]. split.
  - exists new2. split; [exact Hlog2|].
    replace (S d) with (length (heap s1)); [exact Hb2|].
    simpl. rewrite length_app. simpl. unfold d. lia.
  - exists new3. split; [exact Hlog3|].
    replace (S (S d)) with (length (heap s2)); [exact Hb3|].
    rewrite Hh2', length_app. simpl. unfold d. lia.
Qed.

(** On a non-empty input [median] returns a value or raises what an
    operator of the number type raises, having appended to the store the
    copy and the deques of the calls of [quickselect], each a permutation
    of the input. *)
Lemma median_nonempty ar data o s :
  heap s !! data = Some o -> contents o <> [] ->
  exists out s' bufs,
    median ar data s = (out, s') /\
    ((exists v, out = Ret v) \/ (exists e, out = Raise (ArithmeticError e))) /\
    heap s' = heap s ++ PyList (contents o) :: bufs /\
    Forall (fun b => exists ys, b = PyDeque ys /\ contents o ≡ₚ ys) bufs /\
    exists new, accesses s' = new ++ accesses s /\
      Forall (fun a => 0 <= a.2 < Z.of_nat (length (contents o))) new.
Proof.
  intros Hd Hne.
  pose proof (Z.mod_pos_bound (Z.of_nat (length (contents o))) 2 ltac:(lia)) as Hmb.
  destruct (Z.eq_dec (Z.of_nat (length (contents o)) mod 2) 1) as [Hodd|Heven].
  - destruct (median_odd_run ar data o s Hd Hodd)
      as (v & s' & xs' & Hm & _ & Hp & Hh & new & Hlog & Hb).
    exists (Ret (Num v)), s', [PyDeque xs']. split; [exact Hm|].
    split; [left; now eexists|]. split; [exact Hh|]. split.
    + repeat constructor. now exists xs'.
    + exists new. split; [exact Hlog|].
      eapply Forall_impl; [exact Hb|]. intros a [_ Ha]. exact Ha.
  - destruct (median_even_run ar data o s Hd Hne ltac:(lia))
      as (a & s2 & xs2 & b & s3 & xs3 & _ & _ & _ & Hh3 & Hm & _ & _ & Hp2 & Hp3 &
          (new2 & Hlog2 & Hb2) & (new3 & Hlog3 & Hb3)).
    exists (halved_sum ar a b), s3, [PyDeque xs2; PyDeque xs3].
    split; [exact Hm|]. split; [apply halved_sum_cases|]. split; [exact Hh3|].
    split.
    + repeat constructor; eexists; split; try reflexivity; assumption.
    + exists (new3 ++ new2). split.
      * rewrite Hlog3, Hlog2. now rewrite app_assoc.
      * apply Forall_app. split.
        -- eapply Forall_impl; [exact Hb3|]. intros x [_ Hx]. exact Hx.
        -- eapply Forall_impl; [exact Hb2|]. intros x [_ Hx]. exact Hx.
Qed.

(** ** The recursion budget is never exhausted *)

Lemma bind_ret_inv {A B} (m : M A) (f : A -> M B) s b s' :
  bind m f s = (Ret b, s') ->
  exists a s1, m s = (Ret a, s1) /\ f a s1 = (Ret b, s').
Proof.
  unfold bind. destruct (m s) as [[a|e|] s1]; intros H; try discriminate.
  now exists a, s1.
Qed.

Lemma total_bind {A B} (m : M A) (f : A -> M B) :
  total m -> (forall a, total (f a)) -> total (bind m f).
Proof.
  intros Hm Hf s. unfold bind. specialize (Hm s).
  destruct (m s) as [[a|e|] s1]; simpl in *; [apply Hf | discriminate | congruence].
Qed.

Lemma total_ret {A} (a : A) : total (ret a).
Proof. intros s. discriminate. Qed.

Create HintDb py_total.

(** [total_steps]: totality of a sequence of steps, each total by a lemma
    of [py_total]. *)
Ltac total_steps :=
  repeat (apply total_bind; [solve [auto with py_total] | intros ?]);
  auto with py_total.

Lemma getitem_total q i : total (getitem q i).
Proof.
  intros s. unfold getitem. destruct (heap s !! q) as [o|]; [|discriminate].
  destruct (py_index _ i) as [n|]; [|discriminate].
  destruct (contents o !! n); discriminate.
Qed.

Lemma setitem_total q i v : total (setitem q i v).
Proof.
  intros s. unfold setitem. destruct (heap s !! q) as [o|]; [|discriminate].
  destruct (py_index _ i) as [n|]; discriminate.
Qed.

#[local] Hint Resolve total_ret getitem_total setitem_total : py_total.

Lemma swap_total q a b : total (swap q a b).
Proof. unfold swap. total_steps. Qed.

#[local] Hint Resolve swap_total : py_total.

Lemma partition_loop_total q pivot_value js :
  forall i store_index, total (partition_loop q pivot_value js i store_index).
Proof.
  induction js as [|j js IH]; intros i st; simpl; [apply total_ret|].
  apply total_bind; [apply getitem_total|]. intros v.
  destruct (Qltb v pivot_value); total_steps.
Qed.

#[local] Hint Resolve partition_loop_total : py_total.

Lemma partition_total q left right pivot_index :
  total (partition q left right pivot_index).
Proof.
  unfold partition. total_steps.
Qed.

(** Whatever the buffer, the store index ends between its first value and
    that value plus the number of items scanned. *)
Lemma partition_loop_bounds q pivot_value js :
  forall i store_index s r s',
    partition_loop q pivot_value js i store_index s = (Ret r, s') ->
    store_index <= r <= store_index + Z.of_nat (length js).
Proof.
  induction js as [|j js IH]; intros i st s r s' H; simpl in H.
  - injection H as <- _. simpl. lia.
  - apply bind_ret_inv in H as (v & s1 & _ & H).
    simpl length. destruct (Qltb v pivot_value).
    + apply bind_ret_inv in H as (_ & s2 & _ & H). apply IH in H. lia.
    + apply IH in H. lia.
Qed.

Lemma partition_bounds q left right pivot_index s r s' :
  partition q left right pivot_index s = (Ret r, s') -> left <= right ->
  left <= r <= right.
Proof.
  unfold partition. intros H Hlr.
  apply bind_ret_inv in H as (pv & s1 & _ & H).
  apply bind_ret_inv in H as (_ & s2 & _ & H).
  apply bind_ret_inv in H as (st & s3 & Hloop & H).
  apply bind_ret_inv in H as (_ & s4 & _ & H).
  injection H as <- _.
  apply partition_loop_bounds in Hloop. rewrite range_length in Hloop; lia.
Qed.

Lemma randint_ret_inv a b s r s' :
  randint a b s = (Ret r, s') -> a <= r <= b.
Proof.
  unfold randint. destruct (Z.ltb_spec b a) as [?|Hab]; [discriminate|].
  destruct (tape s) as [|x t]; intros H; injection H as <- _; [lia|].
  pose proof (Z.mod_pos_bound x (b - a + 1) ltac:(lia)). lia.
Qed.

Lemma randint_total a b : total (randint a b).
Proof.
  intros s. unfold randint. destruct (b <? a); [discriminate|].
  destruct (tape s); discriminate.
Qed.

Lemma as_deque_total l : total (as_deque l).
Proof.
  intros s. unfold as_deque. destruct (heap s !! l) as [[xs|xs]|]; discriminate.
Qed.

Lemma quickselect_fuel_total fuel :
  forall l left right k,
    (Z.to_nat (right - left) < fuel)%nat ->
    total (quickselect_fuel fuel l left right k).
Proof.
  induction fuel as [|fuel IH]; intros l left right k Hf s; [lia|].
  simpl. unfold quickselect_body, bind.
  pose proof (as_deque_total l s) as T0.
  destruct (as_deque l s) as [[q|e|] s0]; simpl in *; [|discriminate|congruence].
  destruct (Z.eqb_spec left right) as [->|Hne]; [apply getitem_total|].
  pose proof (randint_total left right s0) as T1.
  destruct (randint left right s0) as [[r|e|] s1] eqn:E1; simpl in *;
    [|discriminate|congruence].
  apply randint_ret_inv in E1.
  pose proof (partition_total q left right r s1) as T2.
  destruct (partition q left right r s1) as [[p|e|] s2] eqn:E2; simpl in *;
    [|discriminate|congruence].
  apply partition_bounds in E2; [|lia].
  destruct (k =? p); [apply getitem_total|].
  destruct (k <? p); apply IH; lia.
Qed.

(** [quickselect] is total: the budget it starts with is enough in every
    state and for every argument. *)
Lemma quickselect_total l left right k : total (quickselect l left right k).
Proof. unfold quickselect. apply quickselect_fuel_total. lia. Qed.

Lemma lift_arith_total r : total (lift_arith r).
Proof. intros s. destruct r; discriminate. Qed.

Lemma median_total ar data : total (median ar data).
Proof.
  unfold median. apply total_bind.
  { intros s. unfold list_of. destruct (heap s !! data); discriminate. }
  intros d. apply total_bind.
  { intros s. unfold len. destruct (heap s !! d); discriminate. }
  intros n. destruct (n =? 0); [intros s; discriminate|].
  destruct (n mod 2 =? 1).
  { apply total_bind; [apply quickselect_total|]. intros v. apply total_ret. }
  apply total_bind; [apply quickselect_total|]. intros a.
  apply total_bind; [apply quickselect_total|]. intros b.
  apply total_bind; [apply lift_arith_total|]. intros sum. apply lift_arith_total.
Qed.

(** ** [quickselect] with a rank outside the range *)

(** On an empty range the pivot draw fails. *)
Lemma quickselect_fuel_empty_range fuel q left right k s xs :
  heap s !! q = Some (PyDeque xs) -> right < left ->
  quickselect_fuel (S fuel) q left right k s = (Raise ValueError, s).
Proof.
  intros Hq Hlt. simpl. unfold quickselect_body.
  run (as_deque_deque _ _ _ Hq).
  destruct (Z.eqb_spec left right) as [?|_]; [lia|].
  apply bind_raise. unfold randint.
  destruct (Z.ltb_spec right left); [reflexivity | lia].
Qed.

(** With [k] outside a valid range the recursion goes on narrowing toward
    the side of [k]: it ends on a one-element range, whose element it
    returns, or on an empty one, where the pivot draw fails. *)
Lemma quickselect_fuel_outside fuel :
  forall q left right k s xs,
    heap s !! q = Some (PyDeque xs) ->
    0 <= left -> left <= right < Z.of_nat (length xs) ->
    k < left \/ right < k ->
    right - left < Z.of_nat fuel ->
    exists s' xs',
      rearranged q xs xs' s s' /\
      ((exists v, quickselect_fuel fuel q left right k s = (Ret v, s') /\ v ∈ xs) \/
       quickselect_fuel fuel q left right k s = (Raise ValueError, s')).
Proof.
  induction fuel as [|fuel IH]; intros q left right k s xs Hq Hl Hr Hk Hf; [lia|].
  cbn [quickselect_fuel]. unfold quickselect_body.
  run (as_deque_deque _ _ _ Hq).
  destruct (Z.eqb_spec left right) as [->|Hne].
  - destruct (getitem_rearranged q right s xs Hq) as (v & s' & Hg & Hv & _ & R);
      [lia|].
    exists s', xs. split; [exact R|]. left. exists v. split; [exact Hg|].
    eapply list_elem_of_lookup_2, Hv.
  - destruct (randint_rearranged q xs left right s Hq) as (r & s1 & Hr1 & Hrb & R1);
      [lia|].
    pose proof (rearranged_lookup _ _ _ _ _ Hq R1) as Hq1.
    destruct (partition_ok q left right r s1 xs Hq1) as (p & xs2 & s2 & Hp & Hpb & R2);
      [lia..|].
    pose proof (rearranged_lookup _ _ _ _ _ Hq1 R2) as Hq2.
    pose proof (rearranged_length _ _ _ _ _ R2) as Hlen2.
    pose proof (rearranged_trans _ _ _ _ _ _ _ R1 R2) as R12.
    run Hr1. run Hp.
    destruct (Z.eqb_spec k p) as [?|_]; [lia|].
    destruct fuel as [|fuel]; [lia|].
    destruct (Z.ltb_spec k p) as [Hlt|Hge].
    + destruct (Z.eq_dec p left) as [->|Hpl].
      * rewrite (quickselect_fuel_empty_range _ _ _ _ _ _ _ Hq2) by lia.
        exists s2, xs2. split; [exact R12|]. now right.
      * destruct (IH q left (p - 1) k s2 xs2 Hq2) as (s3 & xs3 & R3 & H3);
          [lia | lia | lia | lia |].
        exists s3, xs3. split; [eapply rearranged_trans; eassumption|].
        destruct H3 as [(v & Hv & Hin)|Hv]; [left | now right].
        exists v. split; [exact Hv|]. now rewrite (re_perm _ _ _ _ _ R12).
    + destruct (Z.eq_dec p right) as [->|Hpr].
      * rewrite (quickselect_fuel_empty_range _ _ _ _ _ _ _ Hq2) by lia.
        exists s2, xs2. split; [exact R12|]. now right.
      * destruct (IH q (p + 1) right k s2 xs2 Hq2) as (s3 & xs3 & R3 & H3);
          [lia | lia | lia | lia |].
        exists s3, xs3. split; [eapply rearranged_trans; eassumption|].
        destruct H3 as [(v & Hv & Hin)|Hv]; [left | now right].
        exists v. split; [exact Hv|]. now rewrite (re_perm _ _ _ _ _ R12).
Qed.

(** * The claims *)

(** C1 (defect): [median] does not always return the middle of [sorted(S)].
    On [1, 2, 3, 4, 5, 6, 9], with the pivots 2 and then 4 drawn, it returns
    1 where the sorted middle is 4; on [1, 9, 5], with the pivots 0 and then
    1, it returns 1 where the sorted middle is 5. *)
Theorem median_misses_sorted_middle :
  (run_median int_arith (zs [1; 2; 3; 4; 5; 6; 9]) [2; 1]).1 = Ret (Num 1%Q) /\
  spec_median (zs [1; 2; 3; 4; 5; 6; 9]) = Some 4%Q /\
  (run_median int_arith (zs [1; 9; 5]) [0; 0]).1 = Ret (Num 1%Q) /\
  spec_median (zs [1; 9; 5]) = Some 5%Q.
Proof. repeat split; vm_compute; reflexivity. Qed.

(** C2 (defect): on the buffer [1, 4, 2, 3] with [left = 1], [right = 3]
    and the pivot at index 3, as [median([1, 4, 2, 3])] calls it after the
    pivot 0, [partition] returns 2 and leaves [1, 4, 3, 2]: the 4 at index 1
    lies below the store index without being less than the pivot value 3,
    and the 2 at index 3 lies above it while being less. *)
Theorem partition_breaks_postcondition :
  (partition 0%nat 1 3 3 (State [PyDeque (zs [1; 4; 2; 3])] [] [])).1 = Ret 2 /\
  heap (partition 0%nat 1 3 3 (State [PyDeque (zs [1; 4; 2; 3])] [] [])).2 =
    [PyDeque (zs [1; 4; 3; 2])] /\
  partitioned (zs [1; 4; 3; 2]) 1 3 2 3 = false.
Proof. repeat split; vm_compute; reflexivity. Qed.

(** C3 (defect): on the buffer [1, 9, 5] with [left = 1], [right = 2] and
    the pivot at index 1, as [median([1, 9, 5])] calls it after the pivot 0,
    [partition] leaves [5, 1, 9]: index 0, outside [left .. right], has
    changed. *)
Theorem partition_writes_outside_range :
  (partition 0%nat 1 2 1 (State [PyDeque (zs [1; 9; 5])] [] [])).1 = Ret 2 /\
  heap (partition 0%nat 1 2 1 (State [PyDeque (zs [1; 9; 5])] [] [])).2 =
    [PyDeque (zs [5; 1; 9])].
Proof. split; vm_compute; reflexivity. Qed.

(** C4 (defect): on [1, 2, 3, 4, 5, 6], with the pivots 1 and then 3 drawn
    in the first call and the left bound in the second, [median] returns
    5/2 where the mean of the two central elements is 7/2. *)
Theorem median_even_misses_mean :
  (run_median int_arith (zs [1; 2; 3; 4; 5; 6]) [1; 1; 0; 0; 0; 0]).1 =
    Ret (Num (5 # 2)%Q) /\
  spec_median (zs [1; 2; 3; 4; 5; 6]) = Some (7 # 2)%Q.
Proof. split; vm_compute; reflexivity. Qed.

(** C5 (counterexample): in [median([2, 1])] the first call of
    [quickselect], made when the store holds the input and its copy [data],
    works on the deque at address 2 and the second on a new one at address
    3: the buffer is not shared.  The run ends with both deques in the
    store and with [data] in its original order. *)
Lemma second_call_copies_again :
  ~ second_call_shares_buffer 1%nat 0 1 0
      (State [PyList (zs [2; 1]); PyList (zs [2; 1])] [] []) /\
  heap (run_median int_arith (zs [2; 1]) []).2 =
    [PyList (zs [2; 1]); PyList (zs [2; 1]);
     PyDeque (zs [1; 2]); PyDeque (zs [1; 2])].
Proof.
  split; [|vm_compute; reflexivity].
  intros (q & s0 & v & s1 & H0 & H1 & H2).
  vm_compute in H0. injection H0 as <- _.
  vm_compute in H1. injection H1 as _ <-.
  vm_compute in H2. discriminate.
Qed.

(** A call of [quickselect] on a list leaves the list as it was and works
    on a deque of its own; at the entry of the next call on the same list,
    lines 28-30 allocate one more deque, which holds the elements in the
    order of the list. *)
Lemma quickselect_list_fresh_copy s data xs left right k :
  heap s !! data = Some (PyList xs) ->
  0 <= left <= k -> k <= right < Z.of_nat (length xs) ->
  exists v s1 xs1,
    quickselect data left right k s = (Ret v, s1) /\
    heap s1 = heap s ++ [PyDeque xs1] /\
    heap s1 !! data = Some (PyList xs) /\
    as_deque data s1 =
      (Ret (S (length (heap s))),
       State (heap s1 ++ [PyDeque xs]) (tape s1) (accesses s1)).
Proof.
  intros Hd Hl Hr.
  destruct (quickselect_ok data (PyList xs) left right k s Hd Hl Hr)
    as (v & s1 & xs1 & Hq & _ & _ & Hh & _).
  cbn [store_after] in Hh.
  assert (Hd1 : heap s1 !! data = Some (PyList xs))
    by (rewrite Hh; now apply lookup_app_l_Some).
  exists v, s1, xs1. repeat split; try assumption.
  rewrite (as_deque_list _ _ _ Hd1). do 2 f_equal.
  rewrite Hh, length_app. simpl. lia.
Qed.

(** C5 (amended): on a non-empty input of even length, the run of [median]
    is this.  The first call of [quickselect] on the list [data], at
    address [d], works on a new deque at address [d + 1] and leaves it
    holding [xs2].  At the entry of the second call [data] still holds the
    elements in their original order, and lines 28-30 copy them into one
    more deque, at address [d + 2]; every subscript of the second call is a
    subscript of that deque.  [median] ends in the state the second call
    leaves, where the first deque still holds [xs2], with the outcome of
    [(a + b) / 2] on the two values returned. *)
Theorem median_even_copies_twice ar s data o :
  heap s !! data = Some o -> contents o <> [] ->
  Z.of_nat (length (contents o)) mod 2 = 0 ->
  let xs := contents o in
  let n := Z.of_nat (length xs) in
  let d := length (heap s) in
  let s1 := State (heap s ++ [PyList xs]) (tape s) (accesses s) in
  exists a s2 xs2 b s3 xs3,
    quickselect d 0 (n - 1) (n / 2 - 1) s1 = (Ret a, s2) /\
    heap s2 = heap s ++ [PyList xs; PyDeque xs2] /\
    as_deque d s2 =
      (Ret (S (S d)), State (heap s2 ++ [PyDeque xs]) (tape s2) (accesses s2)) /\
    quickselect d 0 (n - 1) (n / 2) s2 = (Ret b, s3) /\
    heap s3 = heap s ++ [PyList xs; PyDeque xs2; PyDeque xs3] /\
    (exists new, accesses s3 = new ++ accesses s2 /\
       Forall (in_bounds (S (S d)) (length xs)) new) /\
    median ar data s = (halved_sum ar a b, s3).
Proof.
  intros Hd Hne Heven xs n d s1.
  destruct (median_even_run ar data o s Hd Hne Heven)
    as (a & s2 & xs2 & b & s3 & xs3 & Hq2 & Hh2 & Hq3 & Hh3 & Hm & _ & _ & _ & _ &
        _ & Hlog3).
  exists a, s2, xs2, b, s3, xs3.
  split; [exact Hq2|]. split; [exact Hh2|]. split; [|auto].
  assert (Hd2 : heap s2 !! d = Some (PyList xs)).
  { rewrite Hh2. now apply list_lookup_middle. }
  rewrite (as_deque_list _ _ _ Hd2). do 2 f_equal.
  rewrite Hh2, length_app. simpl. unfold d. lia.
Qed.

Lemma median_even_copies_twice_witness :
  [PyList (zs [2; 1])] !! 0%nat = Some (PyList (zs [2; 1])) /\
  exists a s2 xs2 b s3 xs3,
    quickselect 1%nat 0 (2 - 1) (2 / 2 - 1)
      (State ([PyList (zs [2; 1])] ++ [PyList (zs [2; 1])]) [] []) = (Ret a, s2) /\
    heap s2 = [PyList (zs [2; 1])] ++ [PyList (zs [2; 1]); PyDeque xs2] /\
    as_deque 1%nat s2 =
      (Ret 3%nat, State (heap s2 ++ [PyDeque (zs [2; 1])]) (tape s2) (accesses s2)) /\
    quickselect 1%nat 0 (2 - 1) (2 / 2) s2 = (Ret b, s3) /\
    heap s3 =
      [PyList (zs [2; 1])] ++ [PyList (zs [2; 1]); PyDeque xs2; PyDeque xs3] /\
    (exists new, accesses s3 = new ++ accesses s2 /\
       Forall (in_bounds 3%nat 2) new) /\
    median int_arith 0%nat (State [PyList (zs [2; 1])] [] []) =
      (halved_sum int_arith a b, s3).
Proof.
  split; [reflexivity|].
  apply (median_even_copies_twice int_arith (State [PyList (zs [2; 1])] [] [])
           0%nat (PyList (zs [2; 1]))); [reflexivity | discriminate | reflexivity].
Defined.

(** C6 (counterexample): [quickselect] on the deque [1, 2, 3] with the
    range [0 .. 2] and the rank 5 returns 3, and with the range [0 .. 0] and
    the rank 5 it returns 1: no error is raised. *)
Lemma rank_outside_returns_value :
  (5 < 0 \/ 2 < 5) /\
  (quickselect 0%nat 0 2 5 (State [PyDeque (zs [1; 2; 3])] [0; 0] [])).1 = Ret 3%Q /\
  (quickselect 0%nat 0 0 5 (State [PyDeque (zs [1; 2; 3])] [] [])).1 = Ret 1%Q.
Proof. split; [lia|]. split; vm_compute; reflexivity. Qed.

(** C6 (amended): [quickselect] makes no check of [k].  On a valid range
    with [k] outside it, the call returns the only element of the range when
    [left = right]; otherwise it returns some element of the buffer, or
    fails with the [ValueError] of the pivot draw on a range that has
    become empty. *)
Theorem quickselect_rank_unchecked s l o left right k :
  heap s !! l = Some o ->
  0 <= left -> left <= right < Z.of_nat (length (contents o)) ->
  k < left \/ right < k ->
  (left = right ->
   exists v s', quickselect l left right k s = (Ret v, s') /\
                contents o !! Z.to_nat left = Some v) /\
  exists s',
    (exists v, quickselect l left right k s = (Ret v, s') /\ v ∈ contents o) \/
    quickselect l left right k s = (Raise ValueError, s').
Proof.
  intros Hl H0 Hr Hk.
  assert (Hbuf : exists q s0,
    quickselect l left right k s =
      quickselect_fuel (S (Z.to_nat (right - left))) q left right k s0 /\
    heap s0 !! q = Some (PyDeque (contents o))).
  { destruct o as [xs|xs]; cbn [contents].
    - eexists _, _. split; [apply (quickselect_fuel_list _ _ _ _ _ _ _ Hl)|].
      simpl. now apply list_lookup_middle.
    - now exists l, s. }
  destruct Hbuf as (q & s0 & Heq & Hq). rewrite Heq. split.
  - intros <-. cbn [quickselect_fuel]. unfold quickselect_body.
    run (as_deque_deque _ _ _ Hq).
    rewrite Z.eqb_refl.
    destruct (getitem_rearranged q left s0 _ Hq) as (v & s' & Hg & Hv & _); [lia|].
    now exists v, s'.
  - destruct (quickselect_fuel_outside (S (Z.to_nat (right - left)))
                q left right k s0 _ Hq H0 Hr Hk ltac:(lia))
      as (s' & _ & _ & H).
    now exists s'.
Qed.

Lemma quickselect_rank_unchecked_witness :
  (5 < 0 \/ 2 < 5) /\
  exists s',
    (exists v,
        quickselect 0%nat 0 2 5 (State [PyDeque (zs [1; 2; 3])] [0; 0] []) =
          (Ret v, s') /\
        v ∈ zs [1; 2; 3]) \/
    quickselect 0%nat 0 2 5 (State [PyDeque (zs [1; 2; 3])] [0; 0] []) =
      (Raise ValueError, s').
Proof.
  split; [lia|].
  apply (quickselect_rank_unchecked
           (State [PyDeque (zs [1; 2; 3])] [0; 0] []) 0%nat
           (PyDeque (zs [1; 2; 3])) 0 2 5);
    [reflexivity | lia | simpl; lia | lia].
Defined.

(** C7: [median] does not mutate its input.  Whatever object [data] refers
    to, that object, and every other object of the store, is the same after
    the call as before, whether the call returns or raises. *)
Theorem median_keeps_input ar s data o :
  heap s !! data = Some o ->
  heap (median ar data s).2 !! data = Some o /\
  exists new_objects, heap (median ar data s).2 = heap s ++ new_objects.
Proof.
  intros Hd.
  assert (H : exists ext, heap (median ar data s).2 = heap s ++ ext).
  { destruct (contents o) as [|x xs] eqn:Hc.
    - rewrite (median_empty _ _ _ _ Hd Hc). now eexists.
    - destruct (median_nonempty ar data o s Hd)
        as (out & s' & bufs & Hm & _ & Hh & _); [congruence|].
      rewrite Hm. simpl. rewrite Hh. now eexists. }
  split; [|exact H]. destruct H as (ext & ->). now apply lookup_app_l_Some.
Qed.

Lemma median_keeps_input_witness :
  [PyDeque (zs [3; 1; 2; 4])] !! 0%nat = Some (PyDeque (zs [3; 1; 2; 4])) /\
  heap (median int_arith 0%nat
          (State [PyDeque (zs [3; 1; 2; 4])] [1; 0; 2] [])).2 !! 0%nat =
    Some (PyDeque (zs [3; 1; 2; 4])).
Proof.
  split; [reflexivity|].
  apply (median_keeps_input int_arith
           (State [PyDeque (zs [3; 1; 2; 4])] [1; 0; 2] []) 0%nat
           (PyDeque (zs [3; 1; 2; 4]))).
  reflexivity.
Defined.

(** C8: [median] raises [StatisticsError] exactly when its input has no
    element.  It does so right after the copy of the input: no deque has
    been allocated, no pivot drawn and no subscript evaluated.  On every
    other input it returns a value or raises what [+] or [/] of the number
    type raises, an [ArithmeticError] such as the [OverflowError] of
    [int / 2]; on an input of odd length, where neither operator is
    applied, it returns one of the elements. *)
Theorem median_raises_iff_empty ar s data o :
  heap s !! data = Some o ->
  ((median ar data s).1 = Raise StatisticsError <-> contents o = []) /\
  (contents o = [] ->
   (median ar data s).2 = State (heap s ++ [PyList []]) (tape s) (accesses s)) /\
  (contents o <> [] ->
   (exists v, (median ar data s).1 = Ret v) \/
   (exists e, (median ar data s).1 = Raise (ArithmeticError e))) /\
  (Z.of_nat (length (contents o)) mod 2 = 1 ->
   exists v, v ∈ contents o /\ (median ar data s).1 = Ret (Num v)).
Proof.
  intros Hd.
  assert (Hne : contents o <> [] ->
    (exists v, (median ar data s).1 = Ret v) \/
    (exists e, (median ar data s).1 = Raise (ArithmeticError e))).
  { intros Hc.
    destruct (median_nonempty ar data o s Hd Hc) as (out & s' & _ & Hm & Hout & _).
    rewrite Hm. exact Hout. }
  split; [|split; [|split]].
  - split.
    + intros Hm. destruct (contents o) as [|x xs] eqn:Hc; [reflexivity|].
      destruct Hne as [(v & Hv)|(e & He)]; [discriminate|..]; congruence.
    + intros Hc. now rewrite (median_empty _ _ _ _ Hd Hc).
  - intros Hc. now rewrite (median_empty _ _ _ _ Hd Hc).
  - exact Hne.
  - intros Hodd.
    destruct (median_odd_run ar data o s Hd Hodd) as (v & s' & _ & Hm & Hin & _).
    exists v. split; [exact Hin|]. now rewrite Hm.
Qed.

Lemma median_raises_iff_empty_witness :
  [PyList []] !! 0%nat = Some (PyList []) /\
  (median int_arith 0%nat (State [PyList []] [4; 2] [])).1 = Raise StatisticsError /\
  (median int_arith 0%nat (State [PyList []] [4; 2] [])).2 =
    State [PyList []; PyList []] [4; 2] [].
Proof.
  split; [reflexivity|].
  destruct (median_raises_iff_empty int_arith (State [PyList []] [4; 2] []) 0%nat
              (PyList []) eq_refl) as (Hiff & Hst & _).
  split.
  - apply Hiff. reflexivity.
  - apply Hst. reflexivity.
Defined.

(** C9: on a valid call, whatever pivots are drawn, one call of
    [quickselect] either returns without recursing or makes its recursive
    call on the working deque with a range that still holds [k], lies within
    the current one and is strictly narrower; and the whole call returns a
    value. *)
Theorem quickselect_terminates s l o left right k :
  heap s !! l = Some o ->
  0 <= left <= k -> k <= right < Z.of_nat (length (contents o)) ->
  ((exists v s', forall rec, quickselect_body rec l left right k s = (Ret v, s')) \/
   (exists q left' right' s' xs',
       (forall rec, quickselect_body rec l left right k s = rec q left' right' k s') /\
       heap s' !! q = Some (PyDeque xs') /\
       length xs' = length (contents o) /\
       left <= left' /\ left' <= k <= right' /\ right' <= right /\
       right' - left' < right - left)) /\
  exists v s', quickselect l left right k s = (Ret v, s').
Proof.
  intros Hl Hlk Hkr. split.
  - assert (Hbuf : exists q s0,
      as_deque l s = (Ret q, s0) /\ as_deque q s0 = (Ret q, s0) /\
      heap s0 !! q = Some (PyDeque (contents o))).
    { destruct o as [xs|xs]; cbn [contents].
      - eexists _, _. split; [apply (as_deque_list _ _ _ Hl)|].
        assert (Hq : (heap s ++ [PyDeque xs]) !! length (heap s) = Some (PyDeque xs))
          by now apply list_lookup_middle.
        split; [|exact Hq]. eapply as_deque_deque. exact Hq.
      - exists l, s. split; [|split; [|exact Hl]]; eapply as_deque_deque, Hl. }
    destruct Hbuf as (q & s0 & Hl0 & Hq0 & Hq).
    assert (Hsame : forall rec,
      quickselect_body rec l left right k s = quickselect_body rec q left right k s0).
    { intros rec. unfold quickselect_body.
      run Hl0. now run Hq0. }
    destruct (quickselect_body_step q left right k s0 _ Hq Hlk Hkr)
      as [(v & s' & xs' & Hb & _) | (l' & r' & s' & xs' & Hb & R & Hs)].
    + left. exists v, s'. intros rec. now rewrite Hsame.
    + right. exists q, l', r', s', xs'. split; [|split; [|split]].
      * intros rec. now rewrite Hsame.
      * eapply rearranged_lookup; eassumption.
      * eapply rearranged_length; eassumption.
      * exact Hs.
  - destruct (quickselect_ok l o left right k s Hl Hlk Hkr) as (v & s' & _ & Hq & _).
    now exists v, s'.
Qed.

Lemma quickselect_terminates_witness :
  heap (State [PyList (zs [7; 3; 9; 1; 5])] [3; 1; 0] []) !! 0%nat =
    Some (PyList (zs [7; 3; 9; 1; 5])) /\
  exists v s',
    quickselect 0%nat 0 4 2 (State [PyList (zs [7; 3; 9; 1; 5])] [3; 1; 0] []) =
      (Ret v, s').
Proof.
  split; [reflexivity|].
  apply (quickselect_terminates (State [PyList (zs [7; 3; 9; 1; 5])] [3; 1; 0] [])
           0%nat (PyList (zs [7; 3; 9; 1; 5])) 0 4 2);
    [reflexivity | lia | simpl; lia].
Defined.

(** C10: on a valid call, whatever pivots are drawn, every subscript that
    [quickselect] and [partition] evaluate or assign is a subscript of the
    working buffer with an index of [0 .. length - 1], and on a valid call of
    [partition] the store index returned lies in [left .. right]. *)
Theorem subscripts_stay_in_bounds s l o left right k :
  heap s !! l = Some o ->
  0 <= left <= k -> k <= right < Z.of_nat (length (contents o)) ->
  (exists v s' new,
      quickselect l left right k s = (Ret v, s') /\
      accesses s' = new ++ accesses s /\
      Forall (in_bounds (working_buffer l o (heap s)) (length (contents o))) new) /\
  (forall xs pivot_index,
      o = PyDeque xs -> left <= pivot_index <= right ->
      exists store_index s' new,
        partition l left right pivot_index s = (Ret store_index, s') /\
        left <= store_index <= right /\
        accesses s' = new ++ accesses s /\
        Forall (in_bounds l (length xs)) new).
Proof.
  intros Hl Hlk Hkr. split.
  - destruct (quickselect_ok l o left right k s Hl Hlk Hkr)
      as (v & s' & _ & Hq & _ & _ & _ & new & Hlog & Hb).
    now exists v, s', new.
  - intros xs p -> Hp. cbn [contents] in Hkr.
    destruct (partition_ok l left right p s xs Hl) as (st & xs' & s' & Hpt & Hb & R);
      [lia..|].
    destruct R as [_ _ (new & Hlog & Hin)].
    now exists st, s', new.
Qed.

Lemma subscripts_stay_in_bounds_witness :
  heap (State [PyDeque (zs [7; 3; 9; 1; 5])] [3; 1; 0] []) !! 0%nat =
    Some (PyDeque (zs [7; 3; 9; 1; 5])) /\
  exists v s' new,
    quickselect 0%nat 1 4 2 (State [PyDeque (zs [7; 3; 9; 1; 5])] [3; 1; 0] []) =
      (Ret v, s') /\
    accesses s' = new ++ [] /\
    Forall (in_bounds 0%nat 5) new.
Proof.
  split; [reflexivity|].
  apply (subscripts_stay_in_bounds
           (State [PyDeque (zs [7; 3; 9; 1; 5])] [3; 1; 0] [])
           0%nat (PyDeque (zs [7; 3; 9; 1; 5])) 1 4 2);
    [reflexivity | lia | simpl; lia].
Defined.


(** * Further properties of the three functions *)

(** ** What [partition] keeps even when [left] is not 0 *)

Lemma swapped_same xs a : swapped xs a a = xs.
Proof.
  unfold swapped. destruct (xs !! a) as [x|] eqn:Hx; [|reflexivity].
  rewrite list_insert_insert_eq. now apply list_insert_id.
Qed.

Lemma getitem_tape q i s : tape (getitem q i s).2 = tape s.
Proof.
  unfold getitem. destruct (heap s !! q) as [o|]; [|reflexivity].
  destruct (py_index _ i) as [n|]; [|reflexivity].
  destruct (contents o !! n); reflexivity.
Qed.

Lemma setitem_tape q i v s : tape (setitem q i v s).2 = tape s.
Proof.
  unfold setitem. destruct (heap s !! q) as [o|]; [|reflexivity].
  destruct (py_index _ i) as [n|]; reflexivity.
Qed.

Lemma bind_tape {A B} (m : M A) (f : A -> M B) s :
  (forall s0, tape (m s0).2 = tape s0) ->
  (forall a s0, tape (f a s0).2 = tape s0) ->
  tape (bind m f s).2 = tape s.
Proof.
  intros Hm Hf. unfold bind. specialize (Hm s).
  destruct (m s) as [[a|e|] s1]; simpl in *; [|assumption..].
  now rewrite Hf.
Qed.

Lemma swap_tape q a b s : tape (swap q a b s).2 = tape s.
Proof.
  unfold swap. apply bind_tape; [apply getitem_tape|]. intros x s1.
  apply bind_tape; [apply getitem_tape|]. intros y s2.
  apply bind_tape; [apply setitem_tape|]. intros _ s3. apply setitem_tape.
Qed.

Lemma partition_loop_tape q pivot_value js :
  forall i store_index s,
    tape (partition_loop q pivot_value js i store_index s).2 = tape s.
Proof.
  induction js as [|j js IH]; intros i st s; simpl; [reflexivity|].
  apply bind_tape; [apply getitem_tape|]. intros v s1.
  destruct (Qltb v pivot_value); [|apply IH].
  apply bind_tape; [apply swap_tape|]. intros _ s2. apply IH.
Qed.

Lemma partition_tape q left right pivot_index s :
  tape (partition q left right pivot_index s).2 = tape s.
Proof.
  unfold partition. apply bind_tape; [apply getitem_tape|]. intros pv s1.
  apply bind_tape; [apply swap_tape|]. intros _ s2.
  apply bind_tape; [apply partition_loop_tape|]. intros st s3.
  apply bind_tape; [apply swap_tape|]. intros _ s4. reflexivity.
Qed.

(** The loop writes only below the bound [b] that its two indices stay
    under. *)
Lemma partition_loop_above q pivot_value js :
  forall i store_index s xs b,
    heap s !! q = Some (PyDeque xs) ->
    Forall (fun j => 0 <= j < Z.of_nat (length xs)) js ->
    0 <= i -> i + Z.of_nat (length js) <= b ->
    0 <= store_index -> store_index + Z.of_nat (length js) <= b ->
    b <= Z.of_nat (length xs) ->
    exists r xs' s',
      partition_loop q pivot_value js i store_index s = (Ret r, s') /\
      heap s' = <[q := PyDeque xs']> (heap s) /\
      length xs' = length xs /\
      store_index <= r <= store_index + Z.of_nat (length js) /\
      (forall m, b <= m -> xs' !! Z.to_nat m = xs !! Z.to_nat m).
Proof.
  induction js as [|j js IH]; intros i st s xs b Hq Hjs Hi Hib Hst Hsb Hb.
  - exists st, xs, s. simpl. split; [reflexivity|].
    split; [symmetry; now apply list_insert_id|].
    split; [reflexivity|]. split; [lia|]. reflexivity.
  - apply Forall_cons in Hjs as [Hj Hjs]. simpl length in *.
    destruct (getitem_rearranged q j s xs Hq Hj) as (v & s1 & Hg & _ & Hh1 & R1).
    pose proof (rearranged_lookup _ _ _ _ _ Hq R1) as Hq1.
    cbn [partition_loop]. run Hg.
    destruct (Qltb v pivot_value).
    + destruct (lookup_lt_is_Some_2 xs (Z.to_nat st)) as [y Hy]; [lia|].
      destruct (lookup_lt_is_Some_2 xs (Z.to_nat i)) as [z Hz]; [lia|].
      run (swap_ok q st i s1 xs Hq1 ltac:(lia) ltac:(lia)).
      set (xs1 := swapped xs (Z.to_nat st) (Z.to_nat i)).
      set (s2 := State _ _ _).
      assert (Hlen1 : length xs1 = length xs) by apply swapped_length.
      assert (Hq2 : heap s2 !! q = Some (PyDeque xs1)).
      { simpl. apply list_lookup_insert_eq. eapply lookup_lt_Some, Hq1. }
      destruct (IH (i + 1) (st + 1) s2 xs1 b Hq2)
        as (r & xs' & s' & Hr & Hh & Hlen & Hrb & Hout);
        [now rewrite Hlen1 | lia | lia | lia | lia | lia |].
      exists r, xs', s'. split; [exact Hr|]. split.
      { rewrite Hh. simpl. rewrite list_insert_insert_eq. now rewrite Hh1. }
      split; [lia|]. split; [lia|].
      intros m Hm. rewrite Hout by lia. unfold xs1.
      rewrite (swapped_lookup _ _ _ _ _ _ Hy Hz).
      repeat case_decide; try lia. reflexivity.
    + destruct (IH (i + 1) st s1 xs b Hq1)
        as (r & xs' & s' & Hr & Hh & Hlen & Hrb & Hout);
        [assumption | lia | lia | lia | lia | lia |].
      exists r, xs', s'. split; [exact Hr|]. split; [now rewrite Hh, Hh1|].
      split; [exact Hlen|]. split; [lia|]. exact Hout.
Qed.

Lemma partition_detail q left right pivot_index s xs pivot_value :
  heap s !! q = Some (PyDeque xs) ->
  0 <= left <= pivot_index -> pivot_index <= right < Z.of_nat (length xs) ->
  xs !! Z.to_nat pivot_index = Some pivot_value ->
  exists store_index xs' s',
    partition q left right pivot_index s = (Ret store_index, s') /\
    heap s' = <[q := PyDeque xs']> (heap s) /\
    xs ≡ₚ xs' /\
    left <= store_index <= right /\
    xs' !! Z.to_nat store_index = Some pivot_value /\
    (forall m, right < m -> xs' !! Z.to_nat m = xs !! Z.to_nat m).
Proof.
  intros Hq Hl Hr Hpv.
  destruct (partition_ok q left right pivot_index s xs Hq Hl Hr)
    as (st0 & xs0 & s0 & Hpart & _ & R).
  pose proof (rearranged_lookup _ _ _ _ _ Hq R) as Hq0.
  pose proof (re_perm _ _ _ _ _ R) as Hperm.
  revert Hpart. unfold partition.
  run (getitem_ok q pivot_index s _ _ Hq ltac:(lia) Hpv).
  set (s1 := log_access q pivot_index s).
  assert (Hq1 : heap s1 !! q = Some (PyDeque xs)) by exact Hq.
  destruct (lookup_lt_is_Some_2 xs (Z.to_nat right)) as [y Hy]; [lia|].
  run (swap_ok q pivot_index right s1 xs Hq1 ltac:(lia) ltac:(lia)).
  set (xs1 := swapped xs (Z.to_nat pivot_index) (Z.to_nat right)).
  set (s2 := State _ _ _).
  assert (Hl1 : forall m, xs1 !! m =
            if decide (m = Z.to_nat right) then Some pivot_value
            else if decide (m = Z.to_nat pivot_index) then Some y else xs !! m)
    by (intros m; apply swapped_lookup; assumption).
  assert (Hlen1 : length xs1 = length xs) by apply swapped_length.
  assert (Hq2 : heap s2 !! q = Some (PyDeque xs1)).
  { simpl. apply list_lookup_insert_eq. eapply lookup_lt_Some, Hq. }
  pose proof (range_length left right ltac:(lia)) as Hrl.
  destruct (partition_loop_above q pivot_value (range left right) 0 left s2 xs1 right Hq2)
    as (r & xs2 & s3 & Hloop & Hh3 & Hlen2 & Hb & Hout);
    [apply range_bounds; lia | lia | lia | lia | lia | lia |].
  run Hloop.
  assert (Hq3 : heap s3 !! q = Some (PyDeque xs2)).
  { rewrite Hh3. apply list_lookup_insert_eq. eapply lookup_lt_Some, Hq2. }
  assert (Hright : xs2 !! Z.to_nat right = Some pivot_value).
  { rewrite Hout by lia. rewrite Hl1. now rewrite decide_True. }
  destruct (lookup_lt_is_Some_2 xs2 (Z.to_nat r)) as [z Hz]; [lia|].
  run (swap_ok q right r s3 xs2 Hq3 ltac:(lia) ltac:(lia)).
  set (xs3 := swapped xs2 (Z.to_nat right) (Z.to_nat r)).
  assert (Hl3 : forall m, xs3 !! m =
            if decide (m = Z.to_nat r) then Some pivot_value
            else if decide (m = Z.to_nat right) then Some z else xs2 !! m)
    by (intros m; apply swapped_lookup; assumption).
  unfold ret. intros Hpart. injection Hpart as <- <-.
  exists r, xs3, (State (<[q := PyDeque xs3]> (heap s3)) (tape s3)
                    ((q, r) :: (q, right) :: (q, right) :: (q, r) :: accesses s3)).
  split; [reflexivity|].
  assert (Hheap : <[q := PyDeque xs3]> (heap s3) = <[q := PyDeque xs3]> (heap s)).
  { rewrite Hh3. simpl. now rewrite !list_insert_insert_eq. }
  split; [exact Hheap|]. split.
  { simpl in Hq0. rewrite Hheap in Hq0.
    rewrite list_lookup_insert_eq in Hq0 by (eapply lookup_lt_Some, Hq).
    injection Hq0 as <-. exact Hperm. }
  split; [lia|]. split.
  - rewrite Hl3. now rewrite decide_True.
  - intros m Hm. rewrite Hl3. repeat case_decide; try lia.
    rewrite Hout by lia. rewrite Hl1. repeat case_decide; try lia. reflexivity.
Qed.

(** X1: for [left = 0] [partition] does what a partition step has to do.
    On a call with [0 <= pivot_index <= right < len(q)] it returns the index
    where the pivot value ends; every element before that index is less than
    the pivot value, no element after it up to [right] is, the elements
    beyond [right] stay where they were, and the deque holds a permutation
    of its former elements. *)
Theorem partition_from_left_end q right pivot_index s xs pivot_value :
  heap s !! q = Some (PyDeque xs) ->
  0 <= pivot_index <= right -> right < Z.of_nat (length xs) ->
  xs !! Z.to_nat pivot_index = Some pivot_value ->
  exists store_index xs' s',
    partition q 0 right pivot_index s = (Ret store_index, s') /\
    heap s' = <[q := PyDeque xs']> (heap s) /\
    xs ≡ₚ xs' /\
    0 <= store_index <= right /\
    xs' !! Z.to_nat store_index = Some pivot_value /\
    (forall m v, 0 <= m < store_index -> xs' !! Z.to_nat m = Some v ->
                 (v < pivot_value)%Q) /\
    (forall m v, store_index < m <= right -> xs' !! Z.to_nat m = Some v ->
                 (pivot_value <= v)%Q) /\
    (forall m, right < m -> xs' !! Z.to_nat m = xs !! Z.to_nat m).
Proof. apply partition_from_zero. Qed.

Lemma partition_from_left_end_witness :
  [PyDeque (zs [4; 1; 3; 2; 9])] !! 0%nat = Some (PyDeque (zs [4; 1; 3; 2; 9])) /\
  exists store_index xs' s',
    partition 0%nat 0 3 2 (State [PyDeque (zs [4; 1; 3; 2; 9])] [] []) =
      (Ret store_index, s') /\
    heap s' = <[0%nat := PyDeque xs']> [PyDeque (zs [4; 1; 3; 2; 9])] /\
    zs [4; 1; 3; 2; 9] ≡ₚ xs' /\
    0 <= store_index <= 3 /\
    xs' !! Z.to_nat store_index = Some 3%Q /\
    (forall m v, 0 <= m < store_index -> xs' !! Z.to_nat m = Some v -> (v < 3)%Q) /\
    (forall m v, store_index < m <= 3 -> xs' !! Z.to_nat m = Some v -> (3 <= v)%Q) /\
    (forall m, 3 < m -> xs' !! Z.to_nat m = zs [4; 1; 3; 2; 9] !! Z.to_nat m).
Proof.
  split; [reflexivity|].
  apply (partition_from_left_end 0%nat 3 2
           (State [PyDeque (zs [4; 1; 3; 2; 9])] [] []) (zs [4; 1; 3; 2; 9]) 3%Q);
    [reflexivity | lia | simpl; lia | reflexivity].
Defined.

(** X2: on every call with [0 <= left <= pivot_index <= right < len(q)],
    [partition] only permutes the deque [q]: afterwards [q] holds the same
    elements with the same multiplicities, every other object of the store
    is what it was, none was added, and no random number was drawn. *)
Theorem partition_permutes_in_place q left right pivot_index s xs :
  heap s !! q = Some (PyDeque xs) ->
  0 <= left <= pivot_index -> pivot_index <= right < Z.of_nat (length xs) ->
  exists store_index xs' s',
    partition q left right pivot_index s = (Ret store_index, s') /\
    heap s' !! q = Some (PyDeque xs') /\ xs ≡ₚ xs' /\
    (forall r, r <> q -> heap s' !! r = heap s !! r) /\
    length (heap s') = length (heap s) /\
    tape s' = tape s.
Proof.
  intros Hq Hl Hr.
  destruct (partition_ok q left right pivot_index s xs Hq Hl Hr)
    as (st & xs' & s' & Hp & _ & R).
  exists st, xs', s'. split; [exact Hp|].
  split; [eapply rearranged_lookup; eassumption|].
  split; [apply (re_perm _ _ _ _ _ R)|].
  split; [intros r Hne; eapply rearranged_other; eassumption|].
  split; [eapply rearranged_heap_length; eassumption|].
  pose proof (partition_tape q left right pivot_index s) as Ht.
  now rewrite Hp in Ht.
Qed.

Lemma partition_permutes_in_place_witness :
  [PyList (zs [7]); PyDeque (zs [1; 4; 2; 3])] !! 1%nat =
    Some (PyDeque (zs [1; 4; 2; 3])) /\
  exists store_index xs' s',
    partition 1%nat 1 3 3
      (State [PyList (zs [7]); PyDeque (zs [1; 4; 2; 3])] [5] []) =
      (Ret store_index, s') /\
    heap s' !! 1%nat = Some (PyDeque xs') /\ zs [1; 4; 2; 3] ≡ₚ xs' /\
    (forall r, r <> 1%nat ->
       heap s' !! r = [PyList (zs [7]); PyDeque (zs [1; 4; 2; 3])] !! r) /\
    length (heap s') = 2%nat /\
    tape s' = [5].
Proof.
  split; [reflexivity|].
  apply (partition_permutes_in_place 1%nat 1 3 3
           (State [PyList (zs [7]); PyDeque (zs [1; 4; 2; 3])] [5] [])
           (zs [1; 4; 2; 3])); [reflexivity | lia | simpl; lia].
Defined.

(** X3: on every call with [0 <= left <= pivot_index <= right < len(q)],
    also with [left > 0], the index that [partition] returns is where the
    pivot value now is, and the elements beyond [right] have not moved. *)
Theorem partition_places_pivot q left right pivot_index s xs pivot_value :
  heap s !! q = Some (PyDeque xs) ->
  0 <= left <= pivot_index -> pivot_index <= right < Z.of_nat (length xs) ->
  xs !! Z.to_nat pivot_index = Some pivot_value ->
  exists store_index xs' s',
    partition q left right pivot_index s = (Ret store_index, s') /\
    heap s' !! q = Some (PyDeque xs') /\
    left <= store_index <= right /\
    xs' !! Z.to_nat store_index = Some pivot_value /\
    (forall m, right < m -> xs' !! Z.to_nat m = xs !! Z.to_nat m).
Proof.
  intros Hq Hl Hr Hpv.
  destruct (partition_detail q left right pivot_index s xs pivot_value Hq Hl Hr Hpv)
    as (st & xs' & s' & Hp & Hh & _ & Hb & Hst & Hout).
  exists st, xs', s'. split; [exact Hp|]. split; [|auto].
  rewrite Hh. apply list_lookup_insert_eq. eapply lookup_lt_Some, Hq.
Qed.

Lemma partition_places_pivot_witness :
  [PyDeque (zs [1; 4; 2; 3; 8])] !! 0%nat = Some (PyDeque (zs [1; 4; 2; 3; 8])) /\
  exists store_index xs' s',
    partition 0%nat 1 3 3 (State [PyDeque (zs [1; 4; 2; 3; 8])] [] []) =
      (Ret store_index, s') /\
    heap s' !! 0%nat = Some (PyDeque xs') /\
    1 <= store_index <= 3 /\
    xs' !! Z.to_nat store_index = Some 3%Q /\
    (forall m, 3 < m -> xs' !! Z.to_nat m = zs [1; 4; 2; 3; 8] !! Z.to_nat m).
Proof.
  split; [reflexivity|].
  apply (partition_places_pivot 0%nat 1 3 3
           (State [PyDeque (zs [1; 4; 2; 3; 8])] [] []) (zs [1; 4; 2; 3; 8]) 3%Q);
    [reflexivity | lia | simpl; lia | reflexivity].
Defined.

(** ** The smallest element is always selected *)

Lemma take_Permutation_above (xs xs' : list Q) (n : nat) :
  xs ≡ₚ xs' -> (forall m, (n <= m)%nat -> xs' !! m = xs !! m) ->
  take n xs ≡ₚ take n xs'.
Proof.
  intros Hp Habove.
  assert (Hd : drop n xs' = drop n xs).
  { apply list_eq. intros i. rewrite !lookup_drop. apply Habove. lia. }
  rewrite <- (take_drop n xs), <- (take_drop n xs'), Hd in Hp.
  now apply (inj (.++ drop n xs)) in Hp.
Qed.

(** [quickselect(q, 0, right, 0)] only ever recurses to the left, where
    [partition] is called with [left = 0]. *)
Lemma quickselect_fuel_min fuel :
  forall q right s xs,
    heap s !! q = Some (PyDeque xs) ->
    0 <= right < Z.of_nat (length xs) ->
    right < Z.of_nat fuel ->
    exists v s',
      quickselect_fuel fuel q 0 right 0 s = (Ret v, s') /\
      v ∈ take (S (Z.to_nat right)) xs /\
      Forall (Qle v) (take (S (Z.to_nat right)) xs).
Proof.
  induction fuel as [|fuel IH]; intros q right s xs Hq Hr Hf; [lia|].
  cbn [quickselect_fuel]. unfold quickselect_body.
  run (as_deque_deque _ _ _ Hq).
  destruct (Z.eqb_spec 0 right) as [<-|Hne].
  - destruct (getitem_rearranged q 0 s xs Hq) as (v & s' & Hg & Hv & _); [lia|].
    exists v, s'. split; [exact Hg|]. change (Z.to_nat 0) with 0%nat in *.
    rewrite (take_S_r _ _ _ Hv). simpl. split; [apply list_elem_of_here|].
    repeat constructor. apply Qle_refl.
  - destruct (randint_rearranged q xs 0 right s Hq) as (r & s1 & Hr1 & Hrb & R1);
      [lia|].
    pose proof (rearranged_lookup _ _ _ _ _ Hq R1) as Hq1.
    destruct (lookup_lt_is_Some_2 xs (Z.to_nat r)) as [pv Hpv]; [lia|].
    destruct (partition_from_zero q right r s1 xs pv Hq1)
      as (p & xs2 & s2 & Hp & Hh2 & Hperm & Hpb & Hpp & Hlo & Hhi & Hout);
      [lia | lia | exact Hpv |].
    run Hr1. run Hp.
    assert (Hq2 : heap s2 !! q = Some (PyDeque xs2)).
    { rewrite Hh2. apply list_lookup_insert_eq. eapply lookup_lt_Some, Hq1. }
    assert (Hlen2 : length xs2 = length xs)
      by (symmetry; now apply Permutation_length).
    assert (Htake : take (S (Z.to_nat right)) xs ≡ₚ take (S (Z.to_nat right)) xs2).
    { apply take_Permutation_above; [exact Hperm|]. intros m Hm.
      rewrite <- (Nat2Z.id m). apply Hout. lia. }
    assert (Hmin : forall v,
      v ∈ take (S (Z.to_nat right)) xs2 ->
      Forall (Qle v) (take (S (Z.to_nat right)) xs2) ->
      v ∈ take (S (Z.to_nat right)) xs /\
      Forall (Qle v) (take (S (Z.to_nat right)) xs)).
    { intros v Hin Hall. now rewrite Htake. }
    destruct (Z.eqb_spec 0 p) as [<-|Hp0].
    + destruct (getitem_rearranged q 0 s2 xs2 Hq2) as (v & s3 & Hg & Hv & _); [lia|].
      exists v, s3. split; [exact Hg|].
      change (Z.to_nat 0) with 0%nat in Hpp, Hv.
      assert (v = pv) as -> by congruence.
      apply (Hmin pv).
      * apply elem_of_take. exists 0%nat. split; [exact Hv | lia].
      * apply Forall_lookup. intros i x Hx.
        apply lookup_take_Some in Hx as [Hx Hi].
        destruct i as [|i]; [assert (x = pv) as -> by congruence; apply Qle_refl|].
        apply (Hhi (Z.of_nat (S i))); [lia|]. now rewrite Nat2Z.id.
    + destruct (Z.ltb_spec 0 p) as [Hpos|?]; [|lia].
      destruct (IH q (p - 1) s2 xs2 Hq2) as (v & s3 & Hv & Hin & Hall); [lia | lia |].
      exists v, s3. split; [exact Hv|].
      replace (S (Z.to_nat (p - 1))) with (Z.to_nat p) in Hin, Hall by lia.
      apply elem_of_take in Hin as (j & Hj & Hjp).
      assert (Hvpv : (v < pv)%Q).
      { apply (Hlo (Z.of_nat j)); [lia|]. now rewrite Nat2Z.id. }
      apply (Hmin v).
      * apply elem_of_take. exists j. split; [exact Hj | lia].
      * apply Forall_lookup. intros i x Hx.
        apply lookup_take_Some in Hx as [Hx Hi].
        destruct (Z.lt_trichotomy (Z.of_nat i) p) as [Hlt|[Heq|Hgt]].
        -- apply (Forall_lookup_1 _ _ i x Hall).
           rewrite lookup_take_lt by lia. exact Hx.
        -- rewrite <- Heq, Nat2Z.id in Hpp. assert (x = pv) as -> by congruence.
           now apply Qlt_le_weak.
        -- apply Qle_trans with pv; [now apply Qlt_le_weak|].
           apply (Hhi (Z.of_nat i)); [lia|]. now rewrite Nat2Z.id.
Qed.

(** The rank 0 from the left end, on a list or on a deque. *)
Lemma quickselect_min_of_prefix s l o right :
  heap s !! l = Some o ->
  0 <= right < Z.of_nat (length (contents o)) ->
  exists v s',
    quickselect l 0 right 0 s = (Ret v, s') /\
    v ∈ take (S (Z.to_nat right)) (contents o) /\
    Forall (Qle v) (take (S (Z.to_nat right)) (contents o)).
Proof.
  intros Hl Hr. unfold quickselect.
  destruct o as [xs|xs]; cbn [contents] in *.
  - rewrite (quickselect_fuel_list _ _ _ _ _ _ _ Hl).
    apply quickselect_fuel_min; [|lia|lia].
    simpl. now apply list_lookup_middle.
  - apply quickselect_fuel_min; [exact Hl|lia|lia].
Qed.

(** X4: [quickselect(l, 0, right, 0)] returns the smallest element of
    [l[0 .. right]], for every [0 <= right < len(l)], every order of the
    elements and every pivot drawn: the value returned is one of these
    elements and is less than or equal to each of them. *)
Theorem quickselect_selects_minimum s l o right :
  heap s !! l = Some o ->
  0 <= right < Z.of_nat (length (contents o)) ->
  exists v s',
    quickselect l 0 right 0 s = (Ret v, s') /\
    v ∈ take (S (Z.to_nat right)) (contents o) /\
    Forall (Qle v) (take (S (Z.to_nat right)) (contents o)).
Proof. apply quickselect_min_of_prefix. Qed.

Lemma quickselect_selects_minimum_witness :
  [PyList (zs [5; 3; 8; 1; 9])] !! 0%nat = Some (PyList (zs [5; 3; 8; 1; 9])) /\
  exists v s',
    quickselect 0%nat 0 3 0 (State [PyList (zs [5; 3; 8; 1; 9])] [2; 1; 1] []) =
      (Ret v, s') /\
    v ∈ take 4 (zs [5; 3; 8; 1; 9]) /\
    Forall (Qle v) (take 4 (zs [5; 3; 8; 1; 9])).
Proof.
  split; [reflexivity|].
  apply (quickselect_selects_minimum
           (State [PyList (zs [5; 3; 8; 1; 9])] [2; 1; 1] []) 0%nat
           (PyList (zs [5; 3; 8; 1; 9])) 3); [reflexivity | simpl; lia].
Defined.

(** ** The depth of the recursion *)

Lemma quickselect_fuel_S fuel l left right k :
  quickselect_fuel (S fuel) l left right k =
  quickselect_body (quickselect_fuel fuel) l left right k.
Proof. reflexivity. Qed.

(** A budget that was enough stays enough when it grows. *)
Lemma quickselect_fuel_more fuel :
  forall l left right k s,
    (quickselect_fuel fuel l left right k s).1 <> Fuel ->
    quickselect_fuel (S fuel) l left right k s =
    quickselect_fuel fuel l left right k s.
Proof.
  induction fuel as [|fuel IH]; intros l left right k s H.
  - now contradiction H.
  - rewrite (quickselect_fuel_S (S fuel)). rewrite (quickselect_fuel_S fuel) in *.
    revert H. unfold quickselect_body, bind.
    destruct (as_deque l s) as [[q|e|] s0]; try reflexivity.
    destruct (left =? right); [reflexivity|].
    destruct (randint left right s0) as [[r|e|] s1]; try reflexivity.
    destruct (partition q left right r s1) as [[p|e|] s2]; try reflexivity.
    destruct (k =? p); [reflexivity|].
    destruct (k <? p); apply IH.
Qed.

Lemma quickselect_fuel_above fuel l left right k s :
  (Z.to_nat (right - left) < fuel)%nat ->
  quickselect_fuel fuel l left right k s = quickselect l left right k s.
Proof.
  intros Hf. unfold quickselect.
  induction fuel as [|fuel IH]; [lia|].
  destruct (Nat.eq_dec fuel (Z.to_nat (right - left))) as [->|Hne]; [reflexivity|].
  rewrite <- IH by lia. apply quickselect_fuel_more.
  apply quickselect_fuel_total. lia.
Qed.

(** X5: for all arguments, valid or not, [quickselect] ends with a value or
    an exception within [max(right - left, 0) + 1] nested calls: the outcome
    with any larger bound on the depth is the outcome with that one, and it
    is never the exhaustion of the bound. *)
Theorem quickselect_depth_bounded fuel l left right k s :
  (Z.to_nat (right - left) < fuel)%nat ->
  quickselect_fuel fuel l left right k s = quickselect l left right k s /\
  (quickselect l left right k s).1 <> Fuel.
Proof.
  intros Hf. split; [now apply quickselect_fuel_above|].
  apply quickselect_total.
Qed.

Lemma quickselect_depth_bounded_witness :
  (Z.to_nat (4 - 0) < 9)%nat /\
  quickselect_fuel 9 0%nat 0 4 2 (State [PyList (zs [7; 3; 9; 1; 5])] [3; 1; 0] []) =
    quickselect 0%nat 0 4 2 (State [PyList (zs [7; 3; 9; 1; 5])] [3; 1; 0] []) /\
  (quickselect 0%nat 0 4 2 (State [PyList (zs [7; 3; 9; 1; 5])] [3; 1; 0] [])).1
    <> Fuel.
Proof.
  split; [simpl; lia|].
  apply (quickselect_depth_bounded 9 0%nat 0 4 2
           (State [PyList (zs [7; 3; 9; 1; 5])] [3; 1; 0] [])).
  simpl; lia.
Defined.

(** ** Edge cases of [quickselect] and [partition] *)

(** X6: on an empty range, [left > right], [quickselect] raises the
    [ValueError] of [random.randint]: it evaluates no subscript, draws no
    number and leaves every object of the store as it was (a list argument
    has been copied into a new deque by then). *)
Theorem quickselect_empty_range s l o left right k :
  heap s !! l = Some o -> right < left ->
  (quickselect l left right k s).1 = Raise ValueError /\
  accesses (quickselect l left right k s).2 = accesses s /\
  tape (quickselect l left right k s).2 = tape s /\
  (forall r o', heap s !! r = Some o' ->
                heap (quickselect l left right k s).2 !! r = Some o').
Proof.
  intros Hl Hlt. unfold quickselect.
  destruct o as [xs|xs].
  - rewrite (quickselect_fuel_list _ _ _ _ _ _ _ Hl).
    erewrite quickselect_fuel_empty_range;
      [|simpl; now apply list_lookup_middle|exact Hlt].
    simpl. repeat split. intros r o' Hr. now apply lookup_app_l_Some.
  - rewrite (quickselect_fuel_empty_range _ _ _ _ _ _ _ Hl Hlt).
    simpl. repeat split. auto.
Qed.

Lemma quickselect_empty_range_witness :
  [PyDeque (zs [1; 2; 3])] !! 0%nat = Some (PyDeque (zs [1; 2; 3])) /\
  (quickselect 0%nat 2 1 1 (State [PyDeque (zs [1; 2; 3])] [4] [])).1 =
    Raise ValueError.
Proof.
  split; [reflexivity|].
  apply (quickselect_empty_range (State [PyDeque (zs [1; 2; 3])] [4] []) 0%nat
           (PyDeque (zs [1; 2; 3])) 2 1 1); [reflexivity | lia].
Defined.

(** X7: a call of [quickselect] on a deque with
    [0 <= left <= k <= right < len(q)] works in place: it returns one of the
    elements of the deque, the deque then holds a permutation of its former
    elements, no object is allocated and every other object is what it
    was. *)
Theorem quickselect_deque_in_place s q xs left right k :
  heap s !! q = Some (PyDeque xs) ->
  0 <= left <= k -> k <= right < Z.of_nat (length xs) ->
  exists v s' xs',
    quickselect q left right k s = (Ret v, s') /\
    v ∈ xs /\
    heap s' !! q = Some (PyDeque xs') /\ xs ≡ₚ xs' /\
    length (heap s') = length (heap s) /\
    (forall r, r <> q -> heap s' !! r = heap s !! r).
Proof.
  intros Hq Hl Hr.
  destruct (quickselect_fuel_enough (S (Z.to_nat (right - left)))
              q left right k s xs Hq Hl Hr ltac:(lia))
    as (v & s' & xs' & Hv & R & Hin).
  exists v, s', xs'. split; [exact Hv|]. split; [exact Hin|].
  split; [eapply rearranged_lookup; eassumption|].
  split; [apply (re_perm _ _ _ _ _ R)|].
  split; [eapply rearranged_heap_length; eassumption|].
  intros r Hne. eapply rearranged_other; eassumption.
Qed.

Lemma quickselect_deque_in_place_witness :
  [PyList (zs [0]); PyDeque (zs [7; 3; 9; 1; 5])] !! 1%nat =
    Some (PyDeque (zs [7; 3; 9; 1; 5])) /\
  exists v s' xs',
    quickselect 1%nat 1 4 3
      (State [PyList (zs [0]); PyDeque (zs [7; 3; 9; 1; 5])] [2; 0; 1] []) =
      (Ret v, s') /\
    v ∈ zs [7; 3; 9; 1; 5] /\
    heap s' !! 1%nat = Some (PyDeque xs') /\ zs [7; 3; 9; 1; 5] ≡ₚ xs' /\
    length (heap s') = 2%nat /\
    (forall r, r <> 1%nat ->
       heap s' !! r = [PyList (zs [0]); PyDeque (zs [7; 3; 9; 1; 5])] !! r).
Proof.
  split; [reflexivity|].
  apply (quickselect_deque_in_place
           (State [PyList (zs [0]); PyDeque (zs [7; 3; 9; 1; 5])] [2; 0; 1] [])
           1%nat (zs [7; 3; 9; 1; 5]) 1 4 3); [reflexivity | lia | simpl; lia].
Defined.

(** The base case of [quickselect] is one subscript. *)
Lemma quickselect_base_case s q xs left k :
  heap s !! q = Some (PyDeque xs) ->
  (- Z.of_nat (length xs) <= left < Z.of_nat (length xs) ->
   exists v,
     xs !! Z.to_nat (left mod Z.of_nat (length xs)) = Some v /\
     quickselect q left left k s = (Ret v, log_access q left s)) /\
  (left < - Z.of_nat (length xs) \/ Z.of_nat (length xs) <= left ->
   quickselect q left left k s = (Raise IndexError, log_access q left s)).
Proof.
  intros Hq.
  assert (Hqs : quickselect q left left k s = getitem q left s).
  { unfold quickselect. rewrite Z.sub_diag. cbn [Z.to_nat quickselect_fuel].
    unfold quickselect_body. run (as_deque_deque _ _ _ Hq).
    now rewrite Z.eqb_refl. }
  rewrite Hqs. unfold getitem. rewrite Hq. cbn [contents].
  set (n := Z.of_nat (length xs)). unfold py_index. fold n. split.
  - intros Hb.
    destruct (Z.leb_spec 0 left) as [H0|H0]; destruct (Z.ltb_spec left n) as [Hn|Hn];
      cbn [andb]; try lia.
    + rewrite Z.mod_small by lia.
      destruct (lookup_lt_is_Some_2 xs (Z.to_nat left)) as [v Hv]; [lia|].
      exists v. now rewrite Hv.
    + destruct (Z.leb_spec (- n) left) as [Hm|Hm]; destruct (Z.ltb_spec left 0);
        cbn [andb]; try lia.
      replace (left mod n) with (left + n)
        by (apply Z.mod_unique with (-1); lia).
      destruct (lookup_lt_is_Some_2 xs (Z.to_nat (left + n))) as [v Hv]; [lia|].
      exists v. now rewrite Hv.
  - intros Hb.
    destruct (Z.leb_spec 0 left); destruct (Z.ltb_spec left n); cbn [andb];
      try lia; try reflexivity;
      destruct (Z.leb_spec (- n) left); destruct (Z.ltb_spec left 0); cbn [andb];
      try lia; reflexivity.
Qed.

(** X8: with [left == right], [quickselect] on a deque is the subscript
    [q[left]] under Python's rule: for [-len(q) <= left < len(q)] it returns
    the element at position [left mod len(q)], whatever [k] is, leaving the
    deque and the random generator untouched; for any other [left] it raises
    [IndexError]. *)
Theorem quickselect_single_position s q xs left k :
  heap s !! q = Some (PyDeque xs) ->
  (- Z.of_nat (length xs) <= left < Z.of_nat (length xs) ->
   exists v,
     xs !! Z.to_nat (left mod Z.of_nat (length xs)) = Some v /\
     quickselect q left left k s = (Ret v, log_access q left s)) /\
  (left < - Z.of_nat (length xs) \/ Z.of_nat (length xs) <= left ->
   quickselect q left left k s = (Raise IndexError, log_access q left s)).
Proof. apply quickselect_base_case. Qed.

Lemma quickselect_single_position_witness :
  [PyDeque (zs [7; 3; 9])] !! 0%nat = Some (PyDeque (zs [7; 3; 9])) /\
  exists v,
    zs [7; 3; 9] !! Z.to_nat (-1 mod Z.of_nat 3) = Some v /\
    quickselect 0%nat (-1) (-1) 0 (State [PyDeque (zs [7; 3; 9])] [] []) =
      (Ret v, log_access 0%nat (-1) (State [PyDeque (zs [7; 3; 9])] [] [])).
Proof.
  split; [reflexivity|].
  apply (quickselect_single_position (State [PyDeque (zs [7; 3; 9])] [] []) 0%nat
           (zs [7; 3; 9]) (-1) 0); [reflexivity | simpl; lia].
Defined.

(** X9: when [pivot_index] is no index of the deque, neither from the
    front nor from the end, [partition] raises [IndexError] on its first
    line, before it has written anything: the store is what it was. *)
Theorem partition_pivot_out_of_range s q xs left right pivot_index :
  heap s !! q = Some (PyDeque xs) ->
  pivot_index < - Z.of_nat (length xs) \/ Z.of_nat (length xs) <= pivot_index ->
  partition q left right pivot_index s =
    (Raise IndexError, log_access q pivot_index s) /\
  heap (partition q left right pivot_index s).2 = heap s.
Proof.
  intros Hq Hb.
  assert (Hg : getitem q pivot_index s = (Raise IndexError, log_access q pivot_index s)).
  { unfold getitem. rewrite Hq. cbn [contents]. unfold py_index.
    destruct (Z.leb_spec 0 pivot_index);
      destruct (Z.ltb_spec pivot_index (Z.of_nat (length xs))); cbn [andb];
      try lia; try reflexivity;
      destruct (Z.leb_spec (- Z.of_nat (length xs)) pivot_index);
      destruct (Z.ltb_spec pivot_index 0); cbn [andb]; try lia; reflexivity. }
  unfold partition. rewrite (bind_raise _ _ _ _ _ Hg). split; reflexivity.
Qed.

Lemma partition_pivot_out_of_range_witness :
  [PyDeque (zs [7; 3; 9])] !! 0%nat = Some (PyDeque (zs [7; 3; 9])) /\
  partition 0%nat 0 2 3 (State [PyDeque (zs [7; 3; 9])] [] []) =
    (Raise IndexError, log_access 0%nat 3 (State [PyDeque (zs [7; 3; 9])] [] [])) /\
  heap (partition 0%nat 0 2 3 (State [PyDeque (zs [7; 3; 9])] [] [])).2 =
    [PyDeque (zs [7; 3; 9])].
Proof.
  split; [reflexivity|].
  apply (partition_pivot_out_of_range (State [PyDeque (zs [7; 3; 9])] [] []) 0%nat
           (zs [7; 3; 9]) 0 2 3); [reflexivity | simpl; lia].
Defined.

(** X10: on a range of one position, [left == right == pivot_index] with
    [0 <= left < len(q)], [partition] returns that position and changes
    nothing in the store: its two swaps exchange the element with itself and
    its loop has nothing to scan. *)
Theorem partition_single_position s q xs left :
  heap s !! q = Some (PyDeque xs) ->
  0 <= left < Z.of_nat (length xs) ->
  (partition q left left left s).1 = Ret left /\
  heap (partition q left left left s).2 = heap s /\
  tape (partition q left left left s).2 = tape s.
Proof.
  intros Hq Hl. split; [|split; [|apply partition_tape]].
  - destruct (partition_ok q left left left s xs Hq) as (st & xs' & s' & Hp & Hb & _);
      [lia..|].
    rewrite Hp. simpl. f_equal. lia.
  - unfold partition.
    destruct (getitem_rearranged q left s xs Hq Hl) as (pv & s1 & Hg & _ & Hh1 & R1).
    pose proof (rearranged_lookup _ _ _ _ _ Hq R1) as Hq1.
    run Hg. run (swap_ok q left left s1 xs Hq1 Hl Hl).
    rewrite swapped_same. set (s2 := State _ _ _).
    assert (Hh2 : heap s2 = heap s)
      by (simpl; rewrite Hh1; now apply list_insert_id).
    assert (Hq2 : heap s2 !! q = Some (PyDeque xs)) by now rewrite Hh2.
    unfold range. rewrite Z.sub_diag. cbn [seqZ partition_loop].
    rewrite seqZ_nil by lia. cbn [partition_loop].
    erewrite (bind_ret (ret left)) by reflexivity.
    run (swap_ok q left left s2 xs Hq2 Hl Hl).
    rewrite swapped_same. simpl. rewrite Hh1, ?list_insert_insert_eq.
    now apply list_insert_id.
Qed.

Lemma partition_single_position_witness :
  [PyDeque (zs [7; 3; 9])] !! 0%nat = Some (PyDeque (zs [7; 3; 9])) /\
  (partition 0%nat 1 1 1 (State [PyDeque (zs [7; 3; 9])] [6] [])).1 = Ret 1 /\
  heap (partition 0%nat 1 1 1 (State [PyDeque (zs [7; 3; 9])] [6] [])).2 =
    [PyDeque (zs [7; 3; 9])] /\
  tape (partition 0%nat 1 1 1 (State [PyDeque (zs [7; 3; 9])] [6] [])).2 = [6].
Proof.
  split; [reflexivity|].
  apply (partition_single_position (State [PyDeque (zs [7; 3; 9])] [6] []) 0%nat
           (zs [7; 3; 9]) 1); [reflexivity | simpl; lia].
Defined.

(** ** [median] on short inputs, and where its value comes from *)

(** Line 50 on [int]s: the quotient is rounded to the nearest float, and
    [OverflowError] is raised when there is none. *)
Example median_of_ints_rounds :
  (run_median int_arith (zs [2 ^ 53 + 1; 2 ^ 53 + 1]) []).1 =
    Ret (Num (inject_Z (2 ^ 53))) /\
  (run_median int_arith (zs [10 ^ 400; 10 ^ 400]) []).1 =
    Raise (ArithmeticError OverflowError).
Proof. split; vm_compute; reflexivity. Qed.

(** Line 50 on [float]s: a sum beyond the largest float is [inf]. *)
Example median_of_floats_overflows :
  (run_median float_arith [pow2 1023; pow2 1023] []).1 = Ret (Inf false).
Proof. vm_compute. reflexivity. Qed.

Lemma quickselect_list l left right k s xs :
  heap s !! l = Some (PyList xs) ->
  quickselect l left right k s =
  quickselect (length (heap s)) left right k
    (State (heap s ++ [PyDeque xs]) (tape s) (accesses s)).
Proof. intros Hl. unfold quickselect. now apply quickselect_fuel_list. Qed.

(** X11: the median of a single value is that value,
    [median([x]) == x], and no random number is drawn for it. *)
Theorem median_single ar s data o x :
  heap s !! data = Some o -> contents o = [x] ->
  (median ar data s).1 = Ret (Num x) /\ tape (median ar data s).2 = tape s.
Proof.
  intros Hd Hc. rewrite (median_after_copy _ _ _ _ Hd). rewrite Hc.
  cbn [contents length]. cbv zeta.
  set (s1 := State (heap s ++ [PyList [x]]) (tape s) (accesses s)).
  assert (Hd1 : heap s1 !! length (heap s) = Some (PyList [x]))
    by (simpl; now apply list_lookup_middle).
  change (Z.of_nat 1 =? 0) with false. change (Z.of_nat 1 mod 2 =? 1) with true.
  change (Z.of_nat 1 - 1) with 0. change (Z.of_nat 1 / 2) with 0. cbv iota.
  set (s2 := State (heap s1 ++ [PyDeque [x]]) (tape s1) (accesses s1)).
  assert (Hq : heap s2 !! length (heap s1) = Some (PyDeque [x]))
    by (simpl; now apply list_lookup_middle).
  destruct (quickselect_base_case s2 _ [x] 0 0 Hq) as [Hin _].
  destruct Hin as (v & Hv & Hqs); [simpl; lia|].
  simpl in Hv. injection Hv as <-.
  assert (Hqs1 : quickselect (length (heap s)) 0 0 0 s1 =
                 (Ret x, log_access (length (heap s1)) 0 s2))
    by (rewrite (quickselect_list _ _ _ _ _ _ Hd1); exact Hqs).
  run Hqs1. split; reflexivity.
Qed.

Lemma median_single_witness :
  [PyList [(85 # 2)%Q]] !! 0%nat = Some (PyList [(85 # 2)%Q]) /\
  (median float_arith 0%nat (State [PyList [(85 # 2)%Q]] [3] [])).1 =
    Ret (Num (85 # 2)%Q) /\
  tape (median float_arith 0%nat (State [PyList [(85 # 2)%Q]] [3] [])).2 = [3].
Proof.
  split; [reflexivity|].
  apply (median_single float_arith (State [PyList [(85 # 2)%Q]] [3] []) 0%nat
           (PyList [(85 # 2)%Q]) (85 # 2)%Q); reflexivity.
Defined.

(** Of two positions, [quickselect(q, 0, 1, 1)] returns the larger
    element. *)
Lemma quickselect_fuel_pair_max fuel q s xs :
  heap s !! q = Some (PyDeque xs) -> 1 < Z.of_nat (length xs) ->
  exists v s',
    quickselect_fuel (S (S fuel)) q 0 1 1 s = (Ret v, s') /\
    v ∈ take 2 xs /\ Forall (fun x => (x <= v)%Q) (take 2 xs).
Proof.
  intros Hq Hlen. rewrite quickselect_fuel_S. unfold quickselect_body.
  run (as_deque_deque _ _ _ Hq). change (0 =? 1) with false. cbv iota.
  destruct (randint_rearranged q xs 0 1 s Hq) as (r & s1 & Hr1 & Hrb & R1); [lia|].
  pose proof (rearranged_lookup _ _ _ _ _ Hq R1) as Hq1.
  destruct (lookup_lt_is_Some_2 xs (Z.to_nat r)) as [pv Hpv]; [lia|].
  destruct (partition_from_zero q 1 r s1 xs pv Hq1)
    as (p & xs2 & s2 & Hp & Hh2 & Hperm & Hpb & Hpp & Hlo & Hhi & Hout);
    [lia | lia | exact Hpv |].
  run Hr1. run Hp.
  assert (Hq2 : heap s2 !! q = Some (PyDeque xs2)).
  { rewrite Hh2. apply list_lookup_insert_eq. eapply lookup_lt_Some, Hq1. }
  assert (Hlen2 : length xs2 = length xs)
    by (symmetry; now apply Permutation_length).
  assert (Htake : take 2 xs ≡ₚ take 2 xs2).
  { apply take_Permutation_above; [exact Hperm|]. intros m Hm.
    rewrite <- (Nat2Z.id m). apply Hout. lia. }
  destruct (lookup_lt_is_Some_2 xs2 0) as [a Ha]; [lia|].
  destruct (lookup_lt_is_Some_2 xs2 1) as [b Hb]; [lia|].
  assert (Hab : (a <= b)%Q).
  { destruct (Z.eq_dec p 0) as [->|Hp0].
    - change (Z.to_nat 0) with 0%nat in Hpp. assert (a = pv) as -> by congruence.
      apply (Hhi 1); [lia | exact Hb].
    - assert (p = 1) as -> by lia.
      change (Z.to_nat 1) with 1%nat in Hpp. assert (b = pv) as -> by congruence.
      apply Qlt_le_weak. apply (Hlo 0); [lia | exact Ha]. }
  assert (Hgoal : exists s',
    getitem q 1 s2 = (Ret b, s')).
  { eexists. eapply getitem_ok; [exact Hq2 | lia | exact Hb]. }
  destruct Hgoal as (s3 & Hg).
  assert (Hres : b ∈ take 2 xs /\ Forall (fun x => (x <= b)%Q) (take 2 xs)).
  { rewrite Htake. rewrite (take_S_r _ 1 b Hb), (take_S_r _ 0 a Ha). simpl.
    split; [apply list_elem_of_further, list_elem_of_here|].
    repeat constructor; [exact Hab | apply Qle_refl]. }
  exists b, s3. split; [|exact Hres].
  destruct (Z.eqb_spec 1 p) as [<-|Hne]; [exact Hg|].
  assert (p = 0) as -> by lia. change (1 <? 0) with false. cbv iota.
  rewrite quickselect_fuel_S. unfold quickselect_body.
  run (as_deque_deque _ _ _ Hq2). change (0 + 1 =? 1) with true. cbv iota.
  exact Hg.
Qed.

(** The two calls that [median] makes on two values return the smaller
    and the larger. *)
Lemma median_pair_run ar s data o x y :
  heap s !! data = Some o -> contents o = [x; y] ->
  exists a b,
    a ∈ [x; y] /\ b ∈ [x; y] /\
    (a <= x)%Q /\ (a <= y)%Q /\ (x <= b)%Q /\ (y <= b)%Q /\
    (median ar data s).1 = halved_sum ar a b.
Proof.
  intros Hd Hc.
  destruct (median_even_run ar data o s Hd)
    as (a & s2 & xs2 & b & s3 & xs3 & Hq2 & Hh2 & Hq3 & _ & Hm & _);
    [rewrite Hc; discriminate | now rewrite Hc |].
  rewrite Hc in Hq2, Hq3, Hh2. cbn [length] in Hq2, Hq3.
  change (Z.of_nat 2 - 1) with 1 in Hq2, Hq3.
  change (1 / 2 - 1) with 0 in Hq2. change (Z.of_nat 2 / 2 - 1) with 0 in Hq2.
  change (Z.of_nat 2 / 2) with 1 in Hq3.
  set (d := length (heap s)) in *.
  set (s1 := State (heap s ++ [PyList [x; y]]) (tape s) (accesses s)) in *.
  assert (Hd1 : heap s1 !! d = Some (PyList [x; y]))
    by (simpl; now apply list_lookup_middle).
  destruct (quickselect_min_of_prefix s1 d (PyList [x; y]) 1 Hd1)
    as (a' & s2' & Ha & Hain & Hamin); [simpl; lia|].
  rewrite Hq2 in Ha. injection Ha as <- <-.
  assert (Hd2 : heap s2 !! d = Some (PyList [x; y])).
  { rewrite Hh2. now apply list_lookup_middle. }
  destruct (quickselect_fuel_pair_max 0 (length (heap s2))
              (State (heap s2 ++ [PyDeque [x; y]]) (tape s2) (accesses s2)) [x; y])
    as (b' & s3' & Hb & Hbin & Hbmax);
    [simpl; now apply list_lookup_middle | simpl; lia |].
  rewrite (quickselect_list _ _ _ _ _ _ Hd2) in Hq3.
  unfold quickselect in Hq3. change (S (Z.to_nat (1 - 0))) with 2%nat in Hq3.
  rewrite Hq3 in Hb. injection Hb as <- <-.
  cbn [contents take Z.to_nat Pos.to_nat Pos.iter_op Nat.add] in Hain, Hamin.
  cbn [take] in Hbin, Hbmax.
  apply Forall_cons in Hamin as [Hax Hamin]. apply Forall_cons in Hamin as [Hay _].
  apply Forall_cons in Hbmax as [Hxb Hbmax]. apply Forall_cons in Hbmax as [Hyb _].
  exists a, b. rewrite Hm. repeat split; assumption.
Qed.

(** X12: on two values [median] adds the smaller and the larger, in this
    order, and halves the sum, with the operators of the number type:
    the outcome is that of [(min + max) / 2], a value or the exception an
    operator raises.  For [Fraction]s, whose operators are exact, it is
    the value [(x + y) / 2]. *)
Theorem median_pair ar s data o x y :
  heap s !! data = Some o -> contents o = [x; y] ->
  (exists a b,
      a ∈ [x; y] /\ b ∈ [x; y] /\
      (a <= x)%Q /\ (a <= y)%Q /\ (x <= b)%Q /\ (y <= b)%Q /\
      (median ar data s).1 = halved_sum ar a b) /\
  (exists v,
      (median fraction_arith data s).1 = Ret (Num v) /\ (v == (x + y) / 2)%Q).
Proof.
  intros Hd Hc. split; [exact (median_pair_run ar s data o x y Hd Hc)|].
  destruct (median_pair_run fraction_arith s data o x y Hd Hc)
    as (a & b & Hain & Hbin & Hax & Hay & Hxb & Hyb & Hm).
  exists ((a + b) / 2)%Q. split; [exact Hm|].
  assert (Hsum : (a + b == x + y)%Q).
  { apply elem_of_cons in Hain as [->|Hain];
      [|apply elem_of_cons in Hain as [->|Hain]; [|now apply elem_of_nil in Hain]];
      (apply elem_of_cons in Hbin as [->|Hbin];
       [|apply elem_of_cons in Hbin as [->|Hbin]; [|now apply elem_of_nil in Hbin]]).
    - assert (x == y)%Q by (apply Qle_antisym; assumption). now rewrite H.
    - reflexivity.
    - apply Qplus_comm.
    - assert (x == y)%Q by (apply Qle_antisym; assumption). now rewrite H. }
  now rewrite Hsum.
Qed.

Lemma median_pair_witness :
  [PyList (zs [9; 4])] !! 0%nat = Some (PyList (zs [9; 4])) /\
  (exists a b,
      a ∈ [9%Q; 4%Q] /\ b ∈ [9%Q; 4%Q] /\
      (a <= 9)%Q /\ (a <= 4)%Q /\ (9 <= b)%Q /\ (4 <= b)%Q /\
      (median int_arith 0%nat (State [PyList (zs [9; 4])] [1; 0] [])).1 =
        halved_sum int_arith a b) /\
  (exists v,
      (median fraction_arith 0%nat (State [PyList (zs [9; 4])] [1; 0] [])).1 =
        Ret (Num v) /\
      (v == (9 + 4) / 2)%Q).
Proof.
  split; [reflexivity|].
  apply (median_pair int_arith (State [PyList (zs [9; 4])] [1; 0] []) 0%nat
           (PyList (zs [9; 4])) 9%Q 4%Q); reflexivity.
Defined.

(** The value of [median] in terms of the values of [quickselect]. *)
Lemma median_value_origin ar s data o :
  heap s !! data = Some o ->
  (Z.of_nat (length (contents o)) mod 2 = 1 ->
   exists v, v ∈ contents o /\ (median ar data s).1 = Ret (Num v)) /\
  (contents o <> [] -> Z.of_nat (length (contents o)) mod 2 = 0 ->
   exists a b, a ∈ contents o /\ b ∈ contents o /\
               (median ar data s).1 = halved_sum ar a b).
Proof.
  intros Hd. split.
  - intros Hodd.
    destruct (median_odd_run ar data o s Hd Hodd) as (v & s' & _ & Hm & Hin & _).
    exists v. split; [exact Hin|]. now rewrite Hm.
  - intros Hne Heven.
    destruct (median_even_run ar data o s Hd Hne Heven)
      as (a & s2 & xs2 & b & s3 & xs3 & _ & _ & _ & _ & Hm & Hina & Hinb & _).
    exists a, b. split; [exact Hina|]. split; [exact Hinb|]. now rewrite Hm.
Qed.

(** X13: [median] builds its value from the data and from nothing else.
    On an input of odd length it returns one of the elements.  On a
    non-empty one of even length its outcome is that of [(a + b) / 2], in
    the arithmetic of the number type, for two elements [a] and [b] of the
    input: a value, or the exception that [+] or [/] raises. *)
Theorem median_from_elements ar s data o :
  heap s !! data = Some o ->
  (Z.of_nat (length (contents o)) mod 2 = 1 ->
   exists v, v ∈ contents o /\ (median ar data s).1 = Ret (Num v)) /\
  (contents o <> [] -> Z.of_nat (length (contents o)) mod 2 = 0 ->
   exists a b, a ∈ contents o /\ b ∈ contents o /\
               (median ar data s).1 = halved_sum ar a b).
Proof. apply median_value_origin. Qed.

Lemma median_from_elements_witness :
  [PyList (zs [3; 1; 2; 4])] !! 0%nat = Some (PyList (zs [3; 1; 2; 4])) /\
  exists a b,
    a ∈ zs [3; 1; 2; 4] /\ b ∈ zs [3; 1; 2; 4] /\
    (median int_arith 0%nat (State [PyList (zs [3; 1; 2; 4])] [1; 0; 2] [])).1 =
      halved_sum int_arith a b.
Proof.
  split; [reflexivity|].
  apply (median_from_elements int_arith
           (State [PyList (zs [3; 1; 2; 4])] [1; 0; 2] [])
           0%nat (PyList (zs [3; 1; 2; 4]))); [reflexivity | discriminate | reflexivity].
Defined.

(** X14: on one value [x] repeated [count > 0] times, [median] returns [x]
    itself when [count] is odd, and ends as [(x + x) / 2] ends in the
    arithmetic of the number type when [count] is even: for [Fraction]s
    that is a value equal to [x]; for other types it can be a rounded value
    or an exception. *)
Theorem median_repeated_value ar s data o x (count : nat) :
  heap s !! data = Some o -> contents o = replicate (S count) x ->
  (Z.of_nat (S count) mod 2 = 1 -> (median ar data s).1 = Ret (Num x)) /\
  (Z.of_nat (S count) mod 2 = 0 -> (median ar data s).1 = halved_sum ar x x) /\
  (exists v, (median fraction_arith data s).1 = Ret (Num v) /\ (v == x)%Q).
Proof.
  intros Hd Hc.
  assert (Hlen : length (contents o) = S count) by (rewrite Hc; apply length_replicate).
  assert (Hgen : forall ar',
    (Z.of_nat (S count) mod 2 = 1 -> (median ar' data s).1 = Ret (Num x)) /\
    (Z.of_nat (S count) mod 2 = 0 -> (median ar' data s).1 = halved_sum ar' x x)).
  { intros ar'. destruct (median_value_origin ar' s data o Hd) as [Hodd Heven].
    rewrite Hlen in Hodd, Heven. split.
    - intros H1. destruct (Hodd H1) as (v & Hin & Hm). rewrite Hc in Hin.
      apply elem_of_replicate in Hin as [-> _]. exact Hm.
    - intros H0. destruct Heven as (a & b & Ha & Hb & Hm);
        [rewrite Hc; discriminate | exact H0 |].
      rewrite Hc in Ha, Hb.
      apply elem_of_replicate in Ha as [-> _].
      apply elem_of_replicate in Hb as [-> _]. exact Hm. }
  split; [apply Hgen|]. split; [apply Hgen|].
  destruct (Hgen fraction_arith) as [Hodd Heven].
  pose proof (Z.mod_pos_bound (Z.of_nat (S count)) 2 ltac:(lia)) as Hb.
  destruct (Z.eq_dec (Z.of_nat (S count) mod 2) 1) as [H1|H1].
  - exists x. split; [now apply Hodd | reflexivity].
  - exists ((x + x) / 2)%Q. split; [apply Heven; lia|]. field.
Qed.

Lemma median_repeated_value_witness :
  [PyList (replicate 4 (7 # 2)%Q)] !! 0%nat = Some (PyList (replicate 4 (7 # 2)%Q)) /\
  (Z.of_nat 4 mod 2 = 0 ->
   (median float_arith 0%nat
      (State [PyList (replicate 4 (7 # 2)%Q)] [2; 1; 3] [])).1 =
     halved_sum float_arith (7 # 2) (7 # 2)) /\
  exists v,
    (median fraction_arith 0%nat
       (State [PyList (replicate 4 (7 # 2)%Q)] [2; 1; 3] [])).1 = Ret (Num v) /\
    (v == 7 # 2)%Q.
Proof.
  split; [reflexivity|].
  apply (median_repeated_value float_arith
           (State [PyList (replicate 4 (7 # 2)%Q)] [2; 1; 3] [])
           0%nat (PyList (replicate 4 (7 # 2)%Q)) (7 # 2)%Q 3); reflexivity.
Defined.

(** ** The result depends on the elements and the draws only *)

Lemma sim_ret {A} q q' (a : A) : sim q q' (ret a) (ret a).
Proof. intros s s' H. split; [reflexivity | exact H]. Qed.

Lemma sim_bind {A B} q q' (m m' : M A) (f f' : A -> M B) :
  sim q q' m m' -> (forall a, sim q q' (f a) (f' a)) ->
  sim q q' (bind m f) (bind m' f').
Proof.
  intros Hm Hf s s' H. unfold bind. destruct (Hm s s' H) as [Ho Ha].
  destruct (m s) as [[a|e|] s1]; destruct (m' s') as [[a'|e'|] s1'];
    simpl in Ho; try discriminate.
  - injection Ho as <-. now apply Hf.
  - injection Ho as <-. split; [reflexivity | exact Ha].
  - split; [reflexivity | exact Ha].
Qed.

Lemma getitem_sim q q' i : sim q q' (getitem q i) (getitem q' i).
Proof.
  intros s s' Hag. pose proof Hag as [Hh Ht]. unfold getitem. rewrite Hh.
  destruct (heap s' !! q') as [o|]; [|split; [reflexivity | exact Hag]].
  destruct (py_index _ i) as [n|]; [|split; [reflexivity | exact Hag]].
  destruct (contents o !! n); (split; [reflexivity | exact Hag]).
Qed.

Lemma setitem_sim q q' i v : sim q q' (setitem q i v) (setitem q' i v).
Proof.
  intros s s' Hag. pose proof Hag as [Hh Ht]. unfold setitem.
  destruct (heap s !! q) as [o|] eqn:Hq; rewrite <- Hh;
    [|split; [reflexivity | exact Hag]].
  destruct (py_index _ i) as [n|]; [|split; [reflexivity | exact Hag]].
  split; [reflexivity|]. split; [|exact Ht]. simpl.
  rewrite !list_lookup_insert_eq; [reflexivity|..].
  - symmetry in Hh. eapply lookup_lt_Some, Hh.
  - eapply lookup_lt_Some, Hq.
Qed.

Lemma swap_sim q q' a b : sim q q' (swap q a b) (swap q' a b).
Proof.
  unfold swap. apply sim_bind; [apply getitem_sim|]. intros x.
  apply sim_bind; [apply getitem_sim|]. intros y.
  apply sim_bind; [apply setitem_sim|]. intros _. apply setitem_sim.
Qed.

Lemma partition_loop_sim q q' pivot_value js :
  forall i store_index,
    sim q q' (partition_loop q pivot_value js i store_index)
             (partition_loop q' pivot_value js i store_index).
Proof.
  induction js as [|j js IH]; intros i st; simpl; [apply sim_ret|].
  apply sim_bind; [apply getitem_sim|]. intros v.
  destruct (Qltb v pivot_value); [|apply IH].
  apply sim_bind; [apply swap_sim|]. intros _. apply IH.
Qed.

Lemma partition_sim q q' left right pivot_index :
  sim q q' (partition q left right pivot_index) (partition q' left right pivot_index).
Proof.
  unfold partition. apply sim_bind; [apply getitem_sim|]. intros pv.
  apply sim_bind; [apply swap_sim|]. intros _.
  apply sim_bind; [apply partition_loop_sim|]. intros st.
  apply sim_bind; [apply swap_sim|]. intros _. apply sim_ret.
Qed.

Lemma randint_sim q q' a b : sim q q' (randint a b) (randint a b).
Proof.
  intros s s' Hag. pose proof Hag as [Hh Ht]. unfold randint. rewrite Ht.
  destruct (b <? a); [split; [reflexivity | exact Hag]|].
  destruct (tape s') as [|r t] eqn:Ht'; [split; [reflexivity | exact Hag]|].
  split; [reflexivity|]. split; [exact Hh | reflexivity].
Qed.

(** Two calls of [quickselect] on objects with the same elements in the
    same order, with the same draws to come, end the same way and have
    used the same draws. *)
Lemma quickselect_fuel_agree fuel :
  forall q q' left right k s s',
    agree q q' s s' ->
    (quickselect_fuel fuel q left right k s).1 =
      (quickselect_fuel fuel q' left right k s').1 /\
    tape (quickselect_fuel fuel q left right k s).2 =
      tape (quickselect_fuel fuel q' left right k s').2.
Proof.
  induction fuel as [|fuel IH]; intros q q' left right k s s' Hag.
  - split; [reflexivity | apply Hag].
  - assert (Hrest : forall q0 q0' s0 s0', agree q0 q0' s0 s0' ->
      let rest := fun q0 : ref =>
        if left =? right then getitem q0 left
        else
          r <- randint left right ;;
          pivot_index <- partition q0 left right r ;;
          if k =? pivot_index then getitem q0 k
          else if k <? pivot_index then quickselect_fuel fuel q0 left (pivot_index - 1) k
          else quickselect_fuel fuel q0 (pivot_index + 1) right k in
      (rest q0 s0).1 = (rest q0' s0').1 /\
      tape (rest q0 s0).2 = tape (rest q0' s0').2).
    { intros q0 q0' s0 s0' H0. cbv zeta.
      destruct (left =? right).
      { destruct (getitem_sim q0 q0' left s0 s0' H0) as [Ho [_ Ht]]. now split. }
      unfold bind.
      destruct (randint_sim q0 q0' left right s0 s0' H0) as [Ho H1].
      destruct (randint left right s0) as [[r|e|] s1];
        destruct (randint left right s0') as [[r'|e'|] s1'];
        simpl in Ho; try discriminate;
        [ | injection Ho as <-; split; [reflexivity | apply H1]
          | split; [reflexivity | apply H1] ].
      injection Ho as <-.
      destruct (partition_sim q0 q0' left right r s1 s1' H1) as [Ho H2].
      destruct (partition q0 left right r s1) as [[p|e|] s2];
        destruct (partition q0' left right r s1') as [[p'|e'|] s2'];
        simpl in Ho; try discriminate;
        [ | injection Ho as <-; split; [reflexivity | apply H2]
          | split; [reflexivity | apply H2] ].
      injection Ho as <-.
      destruct (k =? p).
      { destruct (getitem_sim q0 q0' k s2 s2' H2) as [Ho [_ Ht]]. now split. }
      destruct (k <? p); now apply IH. }
    rewrite !quickselect_fuel_S. unfold quickselect_body, bind, as_deque.
    destruct Hag as [Hh Ht]. rewrite <- Hh.
    destruct (heap s !! q) as [[xs|xs]|] eqn:Hq.
    + apply Hrest. split; simpl; [|exact Ht].
      rewrite !list_lookup_middle by reflexivity. reflexivity.
    + apply Hrest. split; [|exact Ht]. now rewrite Hq.
    + split; [reflexivity | exact Ht].
Qed.

(** X15: the value of [median] depends on the elements, their order, the
    pivots drawn and the arithmetic of the number type, and on nothing
    else: given as a list or as a deque, in whatever store, the same
    elements in the same order with the same draws to come give the same
    value or the same exception. *)
Theorem median_same_elements_same_result ar s s' data data' o o' :
  heap s !! data = Some o -> heap s' !! data' = Some o' ->
  contents o = contents o' -> tape s = tape s' ->
  (median ar data s).1 = (median ar data' s').1.
Proof.
  intros Hd Hd' Hc Ht.
  rewrite (median_after_copy _ _ _ _ Hd), (median_after_copy _ _ _ _ Hd').
  rewrite <- Hc. set (xs := contents o). cbv zeta.
  set (n := Z.of_nat (length xs)).
  set (s1 := State (heap s ++ [PyList xs]) (tape s) (accesses s)).
  set (s1' := State (heap s' ++ [PyList xs]) (tape s') (accesses s')).
  set (d := length (heap s)). set (d' := length (heap s')).
  assert (Hd1 : heap s1 !! d = Some (PyList xs))
    by (simpl; now apply list_lookup_middle).
  assert (Hd1' : heap s1' !! d' = Some (PyList xs))
    by (simpl; now apply list_lookup_middle).
  assert (Hag : agree d d' s1 s1')
    by (split; [exact (eq_trans Hd1 (eq_sym Hd1')) | exact Ht]).
  destruct (Z.eqb_spec n 0) as [Hn0|Hn0]; [reflexivity|].
  destruct (Z.eqb_spec (n mod 2) 1) as [Hodd|Heven].
  - destruct (quickselect_fuel_agree (S (Z.to_nat (n - 1 - 0))) d d' 0 (n - 1)
                (n / 2) s1 s1' Hag) as [Ho _].
    fold (quickselect d 0 (n - 1) (n / 2)) in Ho.
    fold (quickselect d' 0 (n - 1) (n / 2)) in Ho.
    unfold bind.
    destruct (quickselect d 0 (n - 1) (n / 2) s1) as [[v|e|] s2];
      destruct (quickselect d' 0 (n - 1) (n / 2) s1') as [[v'|e'|] s2'];
      simpl in Ho; try discriminate; simpl; congruence.
  - pose proof (Z.div_mod n 2 ltac:(lia)) as Hdm.
    pose proof (Z.mod_pos_bound n 2 ltac:(lia)) as Hmb.
    assert (Hn : 0 <= n) by (unfold n; lia).
    destruct (quickselect_fuel_agree (S (Z.to_nat (n - 1 - 0))) d d' 0 (n - 1)
                (n / 2 - 1) s1 s1' Hag) as [Ho1 Ht1].
    fold (quickselect d 0 (n - 1) (n / 2 - 1)) in Ho1, Ht1.
    fold (quickselect d' 0 (n - 1) (n / 2 - 1)) in Ho1, Ht1.
    destruct (quickselect_ok d (PyList xs) 0 (n - 1) (n / 2 - 1) s1 Hd1)
      as (a & s2 & xs2 & Hq2 & _ & _ & Hh2 & _); [lia | cbn [contents]; lia |].
    destruct (quickselect_ok d' (PyList xs) 0 (n - 1) (n / 2 - 1) s1' Hd1')
      as (a' & s2' & xs2' & Hq2' & _ & _ & Hh2' & _); [lia | cbn [contents]; lia |].
    rewrite Hq2, Hq2' in Ho1, Ht1. simpl in Ho1, Ht1. injection Ho1 as <-.
    run Hq2. run Hq2'.
    assert (Hag2 : agree d d' s2 s2').
    { split; [|exact Ht1]. rewrite Hh2, Hh2'. cbn [store_after].
      rewrite (lookup_app_l_Some _ _ _ _ Hd1), (lookup_app_l_Some _ _ _ _ Hd1').
      reflexivity. }
    destruct (quickselect_fuel_agree (S (Z.to_nat (n - 1 - 0))) d d' 0 (n - 1) (n / 2)
                s2 s2' Hag2) as [Ho2 _].
    fold (quickselect d 0 (n - 1) (n / 2)) in Ho2.
    fold (quickselect d' 0 (n - 1) (n / 2)) in Ho2.
    unfold bind at 1 3.
    destruct (quickselect d 0 (n - 1) (n / 2) s2) as [[b|e|] s3];
      destruct (quickselect d' 0 (n - 1) (n / 2) s2') as [[b'|e'|] s3'];
      simpl in Ho2; try discriminate; try (simpl; congruence).
    injection Ho2 as <-. now rewrite !halved_sum_run.
Qed.

Lemma median_same_elements_same_result_witness :
  [PyList (zs [3; 1; 2; 4])] !! 0%nat = Some (PyList (zs [3; 1; 2; 4])) /\
  [PyList []; PyDeque (zs [3; 1; 2; 4])] !! 1%nat = Some (PyDeque (zs [3; 1; 2; 4])) /\
  (median int_arith 0%nat (State [PyList (zs [3; 1; 2; 4])] [1; 0; 2] [])).1 =
  (median int_arith 1%nat
     (State [PyList []; PyDeque (zs [3; 1; 2; 4])] [1; 0; 2] [(0%nat, 0)])).1.
Proof.
  split; [reflexivity|]. split; [reflexivity|].
  apply (median_same_elements_same_result int_arith
           (State [PyList (zs [3; 1; 2; 4])] [1; 0; 2] [])
           (State [PyList []; PyDeque (zs [3; 1; 2; 4])] [1; 0; 2] [(0%nat, 0)])
           0%nat 1%nat (PyList (zs [3; 1; 2; 4])) (PyDeque (zs [3; 1; 2; 4])));
    reflexivity.
Defined.

(** X16: what a call of [median] on a non-empty input leaves in the store:
    the objects that were there, unchanged, then the list copy of the input
    in the input's order, then one deque for each call of [quickselect],
    exactly one when the length is odd and exactly two when it is even,
    each holding a permutation of the input. *)
Theorem median_store_footprint ar s data o :
  heap s !! data = Some o -> contents o <> [] ->
  exists buffers,
    heap (median ar data s).2 = heap s ++ PyList (contents o) :: buffers /\
    Forall (fun b => exists ys, b = PyDeque ys /\ contents o ≡ₚ ys) buffers /\
    length buffers =
      if Z.of_nat (length (contents o)) mod 2 =? 1 then 1%nat else 2%nat.
Proof.
  intros Hd Hne.
  pose proof (Z.mod_pos_bound (Z.of_nat (length (contents o))) 2 ltac:(lia)) as Hmb.
  destruct (Z.eqb_spec (Z.of_nat (length (contents o)) mod 2) 1) as [Hodd|Heven].
  - destruct (median_odd_run ar data o s Hd Hodd)
      as (v & s' & xs' & Hm & _ & Hp & Hh & _).
    exists [PyDeque xs']. rewrite Hm. split; [exact Hh|]. split; [|reflexivity].
    repeat constructor. now exists xs'.
  - destruct (median_even_run ar data o s Hd Hne ltac:(lia))
      as (a & s2 & xs2 & b & s3 & xs3 & _ & _ & _ & Hh3 & Hm & _ & _ & Hp2 & Hp3 & _).
    exists [PyDeque xs2; PyDeque xs3]. rewrite Hm.
    split; [exact Hh3|]. split; [|reflexivity].
    repeat constructor; eexists; split; try reflexivity; assumption.
Qed.

Lemma median_store_footprint_witness :
  [PyDeque (zs [3; 1; 2; 4])] !! 0%nat = Some (PyDeque (zs [3; 1; 2; 4])) /\
  exists buffers,
    heap (median int_arith 0%nat
            (State [PyDeque (zs [3; 1; 2; 4])] [1; 0; 2] [])).2 =
      [PyDeque (zs [3; 1; 2; 4])] ++ PyList (zs [3; 1; 2; 4]) :: buffers /\
    Forall (fun b => exists ys, b = PyDeque ys /\ zs [3; 1; 2; 4] ≡ₚ ys) buffers /\
    length buffers = 2%nat.
Proof.
  split; [reflexivity|].
  apply (median_store_footprint int_arith
           (State [PyDeque (zs [3; 1; 2; 4])] [1; 0; 2] [])
           0%nat (PyDeque (zs [3; 1; 2; 4]))); [reflexivity | discriminate].
Defined.
